(** * fc2ppvdb scraper: a shallow embedding of [scrapers/fc2ppvdb/fc2ppvdb.py]

    The script reads an operation name and a fragment, derives a numeric
    identifier from the fragment with two regular expressions, restores a
    session cookie from a file next to the script, performs two HTTP
    requests, maps the JSON answer to a scene record and prints it.

    Modelling choices.
    - A Python [str] is a [string]; a character is a code point below 256,
      the range of [ascii]. In that range the class [\d] of Python's [re]
      is exactly ['0'..'9'], and [.] is every character but the line feed.
      Strings with other characters, among them the decimal digits of
      other scripts, which [\d] matches too, are outside the model.
    - A value decoded from JSON is a [json]; numbers are integers.
      A [dict] is an association list in insertion order, read by the
      first binding of a key.
    - [re.search] is a backtracking matcher over the pattern written as a
      list of tokens, one token per element of the pattern text.
    - Python exceptions and [sys.exit] are results of a computation
      ([Val], [Exit], [Exc]); the stateful functions thread a [State]
      holding the cookie file, the session of [requests] and a trace.
      The trace records the calls of [read_cookie] and [write_cookie],
      the requests, the log lines and the output, in order.
    - The web site, lxml and the JSON codec are an environment [Env]:
      a request either raises [RequestException] or answers with a body
      and cookies to set, lxml either raises on a page or yields the list
      of its CSRF tokens, a body decodes or raises [JSONDecodeError].
    - The cookie file is read in text mode: bytes that are not UTF-8
      raise [UnicodeDecodeError], and CR LF and CR are read as LF. It is
      written as on a system whose line separator is LF. *)

From stdpp Require Import gmap strings list fin_maps.
From Stdlib Require Import ZArith DecimalString DecimalZ DecimalPos Ascii Lia.

Set Default Proof Using "Type".

(** ** Python values decoded from JSON *)

#[warnings="-register-all"]
Inductive json : Type :=
| JNull
| JBool (b : bool)
| JInt (z : Z)
| JStr (s : string)
| JArr (l : list json)
| JObj (d : list (string * json)).

(** Exceptions the script can meet. [KeyError] carries the missing key;
    [OtherError] is an exception of any other class, by the name of the
    class, as a library may raise. *)
Inductive exn : Type :=
| KeyError (key : string)
| TypeError
| AttributeError
| UnicodeDecodeError
| OtherError (class : string).

(** Outcome of running a piece of Python: a value, [sys.exit(code)], or an
    exception on its way up. *)
Inductive res (A : Type) : Type :=
| Val (a : A)
| Exit (code : Z)
| Exc (e : exn).
Arguments Val {A} a.
Arguments Exit {A} code.
Arguments Exc {A} e.

Definition res_bind {A B} (r : res A) (k : A -> res B) : res B :=
  match r with
  | Val a => k a
  | Exit c => Exit c
  | Exc e => Exc e
  end.

Declare Scope res_scope.
Delimit Scope res_scope with res.
Notation "x <- r ;; k" := (res_bind r (fun x => k))
  (at level 100, r at next level, right associativity) : res_scope.

(** First binding of [k] in a dict. *)
Fixpoint assoc (k : string) (d : list (string * json)) : option json :=
  match d with
  | [] => None
  | (k', v) :: d' => if String.eqb k k' then Some v else assoc k d'
  end.

(** [d.get(k)]: [None] when the key is absent; only a dict has [get]. *)
Definition py_get (d : json) (k : string) : res json :=
  match d with
  | JObj kv => Val (default JNull (assoc k kv))
  | _ => Exc AttributeError
  end.

(** [d.get(k, [])]. *)
Definition py_get_list (d : json) (k : string) : res json :=
  match d with
  | JObj kv => Val (default (JArr []) (assoc k kv))
  | _ => Exc AttributeError
  end.

(** [v[k]] for a string key [k]. *)
Definition subscript (v : json) (k : string) : res json :=
  match v with
  | JObj kv =>
      match assoc k kv with
      | Some x => Val x
      | None => Exc (KeyError k)
      end
  | _ => Exc TypeError
  end.

Definition chars (s : string) : list json :=
  (fun a => JStr (String a EmptyString)) <$> String.list_ascii_of_string s.

(** The elements a [for] loop over [v] visits. *)
Definition py_iter (v : json) : res (list json) :=
  match v with
  | JArr l => Val l
  | JObj kv => Val ((fun p => JStr p.1) <$> kv)
  | JStr s => Val (chars s)
  | _ => Exc TypeError
  end.

(** Truth value of [v] in a condition. *)
Definition truthy (v : json) : bool :=
  match v with
  | JNull => false
  | JBool b => b
  | JInt z => negb (z =? 0)%Z
  | JStr s => negb (String.eqb s "")
  | JArr l => match l with [] => false | _ => true end
  | JObj d => match d with [] => false | _ => true end
  end.

(** ** Regular expressions *)

Inductive cclass : Type :=
| CAny      (* .  *)
| CDigit.   (* \d *)

Definition is_newline (a : ascii) : bool := Ascii.eqb a "010"%char.

(** [\d] on the characters of the model: below U+0100 the decimal digits
    are ['0'..'9'] and no others. *)
Definition is_digit (a : ascii) : bool :=
  (Ascii.leb "0"%char a && Ascii.leb a "9"%char)%bool.

Definition in_class (c : cclass) (a : ascii) : bool :=
  match c with
  | CAny => negb (is_newline a)
  | CDigit => is_digit a
  end.

Inductive tok : Type :=
| TLit (s : string)                            (* literal text      *)
| TRep (c : cclass) (min : nat) (greedy : bool) (* c{min,} or c{min,}? *)
| TOpen                                        (* (  of group 1     *)
| TClose.                                      (* )  of group 1     *)

(** [r".+/articles/(\d{5,}).*"] *)
Definition URL_SEARCH_PATTERN : list tok :=
  [TRep CAny 1 true; TLit "/articles/"; TOpen; TRep CDigit 5 true; TClose;
   TRep CAny 0 true].

(** [r".*?(\d{5,}).*"] *)
Definition CODE_SEARCH_PATTERN : list tok :=
  [TRep CAny 0 false; TOpen; TRep CDigit 5 true; TClose; TRep CAny 0 true].

(** A match in progress: where group 1 opened, and its text once closed. *)
Record rmatch : Type := mkMatch {
  g_open : string;
  g_text : option string
}.

(** [search[1]] *)
Definition group1 (m : rmatch) : option string := g_text m.

Fixpoint strip_prefix (l s : string) : option string :=
  match l with
  | EmptyString => Some s
  | String a l' =>
      match s with
      | String b s' => if Ascii.eqb a b then strip_prefix l' s' else None
      | EmptyString => None
      end
  end.

(** Exactly [n] characters of the class. *)
Fixpoint take_min (p : ascii -> bool) (n : nat) (s : string) : option string :=
  match n with
  | O => Some s
  | S n' =>
      match s with
      | String a s' => if p a then take_min p n' s' else None
      | EmptyString => None
      end
  end.

(** Greedy repetition: as many characters as possible first, giving them
    back one at a time while the rest of the pattern fails. *)
Fixpoint greedy_more {A} (p : ascii -> bool) (s : string)
    (k : string -> option A) : option A :=
  match s with
  | String a s' =>
      if p a then
        match greedy_more p s' k with
        | Some r => Some r
        | None => k s
        end
      else k s
  | EmptyString => k s
  end.

(** Lazy repetition: as few characters as possible first. *)
Fixpoint lazy_more {A} (p : ascii -> bool) (s : string)
    (k : string -> option A) : option A :=
  match k s with
  | Some r => Some r
  | None =>
      match s with
      | String a s' => if p a then lazy_more p s' k else None
      | EmptyString => None
      end
  end.

(** The text between two positions of one string, given as suffixes. *)
Definition consumed (from to : string) : string :=
  String.substring 0 (String.length from - String.length to) from.

(** Match the pattern at the start of [s]. *)
Fixpoint pmatch (pat : list tok) (s : string) (m : rmatch) : option rmatch :=
  match pat with
  | [] => Some m
  | TLit l :: pat' =>
      match strip_prefix l s with
      | Some s' => pmatch pat' s' m
      | None => None
      end
  | TRep c min greedy :: pat' =>
      match take_min (in_class c) min s with
      | Some s1 =>
          (if greedy then greedy_more else lazy_more)
            (in_class c) s1 (fun s2 => pmatch pat' s2 m)
      | None => None
      end
  | TOpen :: pat' => pmatch pat' s (mkMatch s None)
  | TClose :: pat' =>
      pmatch pat' s (mkMatch (g_open m) (Some (consumed (g_open m) s)))
  end.

(** [re.search(pattern, string)]: the first start position, left to right,
    at which the pattern matches. *)
Fixpoint re_search (pat : list tok) (s : string) : option rmatch :=
  match pmatch pat s (mkMatch s None) with
  | Some m => Some m
  | None =>
      match s with
      | String _ s' => re_search pat s'
      | EmptyString => None
      end
  end.

(** [re.search(pattern=pat, string=v)] on a Python value. *)
Definition py_search (pat : list tok) (v : json) : res (option rmatch) :=
  match v with
  | JStr s => Val (re_search pat s)
  | _ => Exc TypeError
  end.

(** ** Identifier extraction *)

(** The loop over [fragment.get("files", [])]. *)
Fixpoint search_files (files : list json) : res (option string) :=
  match files with
  | [] => Val None
  | file :: rest =>
      (path <- subscript file "path" ;;
       search <- py_search CODE_SEARCH_PATTERN path ;;
       match search with
       | Some m => Val (group1 m)
       | None => search_files rest
       end)%res
  end.

(** One [if x := fragment.get(k)] block: [Some] is the returned value. *)
Definition search_field (pat : list tok) (fragment : json) (k : string)
    : res (option (option string)) :=
  (v <- py_get fragment k ;;
   if truthy v then
     search <- py_search pat v ;;
     match search with
     | Some m => Val (Some (group1 m))
     | None => Val None
     end
   else Val None)%res.

Definition extract_id (fragment : json) : res (option string) :=
  (r <- search_field URL_SEARCH_PATTERN fragment "url" ;;
   match r with
   | Some id => Val id
   | None =>
   r <- search_field CODE_SEARCH_PATTERN fragment "code" ;;
   match r with
   | Some id => Val id
   | None =>
   r <- search_field CODE_SEARCH_PATTERN fragment "title" ;;
   match r with
   | Some id => Val id
   | None =>
   files <- py_get_list fragment "files" ;;
   files <- py_iter files ;;
   search_files files
   end end end)%res.

(** ** The scene record *)

Definition BASE_QUERY_URL : string := "https://fc2ppvdb.com".

Definition USER_AGENT : string :=
  "Mozilla/5.0 (Macintosh; Intel Mac OS X 10_15_7) AppleWebKit/605.1.15 (KHTML, like Gecko) Version/26.0.1 Safari/605.1.15".

Record ScrapedTag : Type := { tag_name : json }.

Record ScrapedPerformer : Type := {
  performer_name : json;
  performer_urls : list string
}.

Record ScrapedStudio : Type := {
  studio_name : json;
  studio_url : string
}.

Record ScrapedScene : Type := {
  title : json;
  date : json;
  tags : list ScrapedTag;
  performers : list ScrapedPerformer;
  studio : ScrapedStudio;
  director : json;
  code : string;
  image : string;
  url : string
}.

(** The scene as the dict that [json.dumps] receives. *)
Definition scene_json (sc : ScrapedScene) : json :=
  JObj
    [("title", title sc);
     ("date", date sc);
     ("tags", JArr ((fun t => JObj [("name", tag_name t)]) <$> tags sc));
     ("performers",
       JArr ((fun p => JObj [("name", performer_name p);
                             ("urls", JArr (JStr <$> performer_urls p))])
             <$> performers sc));
     ("studio", JObj [("name", studio_name (studio sc));
                      ("url", JStr (studio_url (studio sc)))]);
     ("director", director sc);
     ("code", JStr (code sc));
     ("image", JStr (image sc));
     ("url", JStr (url sc))].

(** ** The environment of a run *)

Inductive http_result : Type :=
| RequestException (msg : string)
| Response (text : string) (set_cookies : list (string * string)).

Inductive decode_result : Type :=
| JSONDecodeError (msg : string)
| Decoded (v : json).

(** What lxml makes of a page. [etree.HTML(text)] stands outside the
    [try] of [get_csrf], and the [try] around [xpath(...)[0]] catches
    [IndexError] only: an exception of [etree.HTML] or of the [xpath] call
    leaves [get_csrf] ([etree.HTML] answers [None] for an empty document,
    and [None.xpath] is an [AttributeError]). Otherwise [xpath] yields the
    list of the [content] attributes found, and [[0]] on the empty list is
    the [IndexError] that is caught. *)
Inductive page_result : Type :=
| PageError (e : exn)
| PageTokens (tokens : list string).

Record Env : Type := {
  (** [scraper.get(url, timeout=10, verify=False)] with the session's
      headers and cookies *)
  http_get : string -> gmap string (option string) -> gmap string string ->
             http_result;
  (** [etree.HTML(text).xpath("//meta[@name='csrf-token']/@content")] *)
  csrf_meta : string -> page_result;
  (** [response.json()] on a body *)
  json_loads : string -> decode_result;
  (** [json.dumps] *)
  json_dumps : json -> string;
  (** [str()] of a list or a dict *)
  py_repr : json -> string
}.

(** A value inside an f-string. *)
Definition format_value (env : Env) (v : json) : string :=
  match v with
  | JStr s => s
  | JInt z => NilZero.string_of_int (Z.to_int z)
  | JBool true => "True"
  | JBool false => "False"
  | JNull => "None"
  | _ => py_repr env v
  end.

(** [str(KeyError(k))] for a key without quotes or escapes, as every key
    the script looks up is. *)
Definition repr_key (k : string) : string := "'" +:+ k +:+ "'".

(** ** The response mapper *)

Fixpoint map_res {A B} (f : A -> res B) (l : list A) : res (list B) :=
  match l with
  | [] => Val []
  | x :: l' => (y <- f x ;; ys <- map_res f l' ;; Val (y :: ys))%res
  end.

(** [v.startswith(p)]: only a [str] has the method. *)
Definition py_startswith (v : json) (p : string) : res bool :=
  match v with
  | JStr s => Val (String.prefix p s)
  | _ => Exc AttributeError
  end.

(** The image of the scene: [image_url] itself, or the f-string that puts
    the base URL in front of it. *)
Definition normalize_image (env : Env) (image_url : json) : res string :=
  (https <- py_startswith image_url "https" ;;
   if negb https then Val (BASE_QUERY_URL +:+ format_value env image_url)
   else Val (format_value env image_url))%res.

Definition export_scene (env : Env) (result : json) : res ScrapedScene :=
  (article <- subscript result "article" ;;
   article_tags <- subscript article "tags" ;;
   article_tags <- py_iter article_tags ;;
   tags <- map_res (fun article_tag =>
             name <- subscript article_tag "name" ;;
             Val {| tag_name := name |}) article_tags ;;
   article_performers <- subscript article "actresses" ;;
   article_performers <- py_iter article_performers ;;
   performers <- map_res (fun article_performer =>
             name <- subscript article_performer "name" ;;
             id <- subscript article_performer "id" ;;
             Val {| performer_name := name;
                    performer_urls :=
                      [BASE_QUERY_URL +:+ "/actresses/" +:+ format_value env id]
                 |}) article_performers ;;
   image_url <- subscript article "image_url" ;;
   image_url <- normalize_image env image_url ;;
   title <- subscript article "title" ;;
   release_date <- subscript article "release_date" ;;
   writer <- subscript article "writer" ;;
   writer_name <- subscript writer "name" ;;
   writer <- subscript article "writer" ;;
   writer_slug <- subscript writer "slug" ;;
   writer <- subscript article "writer" ;;
   director <- subscript writer "name" ;;
   video_id <- subscript article "video_id" ;;
   video_id' <- subscript article "video_id" ;;
   Val {| title := title;
          date := release_date;
          tags := tags;
          performers := performers;
          studio := {| studio_name := writer_name;
                       studio_url := BASE_QUERY_URL +:+ "/writers/"
                                     +:+ format_value env writer_slug |};
          director := director;
          code := "FC2-PPV-" +:+ format_value env video_id;
          image := image_url;
          url := BASE_QUERY_URL +:+ "/articles/" +:+ format_value env video_id'
       |})%res.

(** ** Session store, HTTP client and entry point *)

Inductive level : Type := Debug | Warning | Error.

Inductive event : Type :=
| EvReadCookie                        (* read_cookie was entered  *)
| EvWriteCookie                       (* write_cookie was entered *)
| EvGet (url : string)                (* a request left the host  *)
| EvLog (lvl : level) (msg : string)  (* a line of py_common.log  *)
| EvPrint (out : string).             (* a line on standard output *)

(** How the cookie file can be read, as the run finds it: the script
    reads the file once, before it ever writes it. For [NotUtf8] the
    content of the file is bytes that no text stands for. *)
Inductive access : Type :=
| Unreadable   (* opening it for reading raises OSError *)
| Readable     (* it opens and its bytes are UTF-8      *)
| NotUtf8.     (* it opens and its bytes are not UTF-8  *)

Record State : Type := mkState {
  (** content of the cookie file, [None] when there is no file *)
  cookie_file : option string;
  (** what opening and reading the file does when it exists *)
  readable : access;
  (** the [OSError] that opening the file for writing raises, if any *)
  write_error : option string;
  (** [scraper.cookies.get_dict()] *)
  cookies : gmap string string;
  (** [scraper.headers] *)
  headers : gmap string (option string);
  (** what happened so far, oldest first *)
  trace : list event
}.

Definition M (A : Type) : Type := State -> res A * State.

Definition ret {A} (a : A) : M A := fun st => (Val a, st).

Definition bind {A B} (m : M A) (k : A -> M B) : M B :=
  fun st =>
    match m st with
    | (Val a, st') => k a st'
    | (Exit c, st') => (Exit c, st')
    | (Exc e, st') => (Exc e, st')
    end.

Declare Scope M_scope.
Delimit Scope M_scope with M.
Notation "x <- m ;; k" := (bind m (fun x => k))
  (at level 100, m at next level, right associativity) : M_scope.
Notation "m ;;; k" := (bind m (fun _ => k))
  (at level 100, k at level 200, right associativity) : M_scope.

Definition emit (ev : event) : M unit :=
  fun st => (Val tt,
    mkState (cookie_file st) (readable st) (write_error st) (cookies st)
            (headers st) (trace st ++ [ev])).

Definition log (lvl : level) (msg : string) : M unit := emit (EvLog lvl msg).

Definition sys_exit {A} (c : Z) : M A := fun st => (Exit c, st).

Definition raise {A} (e : exn) : M A := fun st => (Exc e, st).

Definition lift {A} (r : res A) : M A := fun st => (r, st).

Definition set_file (content : string) : M unit :=
  fun st => (Val tt,
    mkState (Some content) (readable st) (write_error st) (cookies st)
            (headers st) (trace st)).

Definition set_cookies_of (kvs : list (string * string)) : M unit :=
  fun st => (Val tt,
    mkState (cookie_file st) (readable st) (write_error st)
            (foldl (fun jar kv => <[kv.1 := kv.2]> jar) (cookies st) kvs)
            (headers st) (trace st)).

Definition update_headers (kvs : list (string * option string)) : M unit :=
  fun st => (Val tt,
    mkState (cookie_file st) (readable st) (write_error st) (cookies st)
            (foldl (fun h kv => <[kv.1 := kv.2]> h) (headers st) kvs)
            (trace st)).

Definition get_state : M State := fun st => (Val st, st).

(** Text mode with [newline=None]: CR LF and a lone CR are read as LF. *)
Fixpoint universal_newlines (s : string) : string :=
  match s with
  | EmptyString => EmptyString
  | String c s' =>
      if Ascii.eqb c "013"%char then
        String "010"%char
          match s' with
          | String c' s'' =>
              if Ascii.eqb c' "010"%char then universal_newlines s''
              else universal_newlines s'
          | EmptyString => EmptyString
          end
      else String c (universal_newlines s')
  end.

Inductive read_result : Type :=
| ReadError          (* OSError: no file, or no permission *)
| ReadUndecodable    (* UnicodeDecodeError out of f.read() *)
| ReadText (s : string).

(** [open(session_path, mode="r", encoding="utf8")] and [f.read()]:
    [OSError] when the file is absent or cannot be opened,
    [UnicodeDecodeError], which is a [ValueError] and not an [OSError],
    when its bytes are not UTF-8, and the text with its line ends
    translated otherwise. *)
Definition open_read (st : State) : read_result :=
  match readable st, cookie_file st with
  | Unreadable, _ => ReadError
  | _, None => ReadError
  | NotUtf8, Some _ => ReadUndecodable
  | Readable, Some raw => ReadText (universal_newlines raw)
  end.

Definition read_cookie : M bool :=
  (emit EvReadCookie ;;;
   st <- get_state ;;
   match open_read st with
   | ReadText cookie =>
       if String.eqb cookie "" then ret false
       else
         log Debug ("Using cookie: " +:+ cookie) ;;;
         set_cookies_of [("fc2ppvdb_session", cookie)] ;;;
         ret true
   | ReadError => ret false
   | ReadUndecodable => raise UnicodeDecodeError
   end)%M.

(** [dict.get] answers [None] for an absent key and does not raise, so the
    [except] branch that would substitute the empty string never runs.
    Opening with [mode="w"] creates or empties the file before
    [f.write(cookie)] is evaluated, and [f.write(None)] is a [TypeError]. *)
Definition write_cookie : M unit :=
  (emit EvWriteCookie ;;;
   st <- get_state ;;
   let cookie := cookies st !! "fc2ppvdb_session" in
   match write_error st with
   | None =>
       set_file "" ;;;
       match cookie with
       | Some c =>
           set_file c ;;;
           log Debug ("Write new cookie to file: " +:+ c)
       | None => raise TypeError
       end
   | Some err => log Error ("Failed to write cookie to file, err: " +:+ err)
   end)%M.

Record response : Type := { text : string }.

Definition scraper_get (env : Env) (url : string) : M http_result :=
  (emit (EvGet url) ;;;
   st <- get_state ;;
   ret (http_get env url (headers st) (cookies st)))%M.

Definition request_article (env : Env) (video_id : string)
    : M (option response) :=
  (let article_url := BASE_QUERY_URL +:+ "/articles/" +:+ video_id in
   r <- scraper_get env article_url ;;
   match r with
   | Response body kvs => set_cookies_of kvs ;;; ret (Some {| text := body |})
   | RequestException req_error =>
       log Error ("Requests article failed: " +:+ req_error) ;;;
       ret None
   end)%M.

Definition request_article_info (env : Env) (video_id csrf : string)
    : M (option response) :=
  (st <- get_state ;;
   let xsrf := cookies st !! "XSRF-TOKEN" in
   update_headers [("X-CSRF-TOKEN", Some csrf);
                   ("X-Requested-With", Some "XMLHttpRequest");
                   ("X-XSRF-TOKEN", xsrf)] ;;;
   let api_url :=
     BASE_QUERY_URL +:+ "/articles/article-info?videoid=" +:+ video_id in
   r <- scraper_get env api_url ;;
   match r with
   | Response body kvs => set_cookies_of kvs ;;; ret (Some {| text := body |})
   | RequestException req_error =>
       log Error ("Request API failed: " +:+ req_error) ;;;
       ret None
   end)%M.

Definition get_csrf (env : Env) (article_response : response)
    : M (option string) :=
  match csrf_meta env (text article_response) with
  | PageError e => raise e
  | PageTokens (csrf :: _) => ret (Some csrf)
  | PageTokens [] => (log Error "CSRF not found" ;;; ret None)%M
  end.

Definition send_request (env : Env) (video_id : string) : M ScrapedScene :=
  (ok <- read_cookie ;;
   (if negb ok then
      log Error "Please configure your session cookie in file fc2ppvdb/session" ;;;
      write_cookie ;;;
      sys_exit 1
    else ret tt) ;;;
   update_headers [("User-Agent", Some USER_AGENT)] ;;;
   page_response <- request_article env video_id ;;
   match page_response with
   | None =>
       log Error "Failed to request article page" ;;;
       write_cookie ;;;
       sys_exit 1
   | Some page_response =>
   csrf <- get_csrf env page_response ;;
   match csrf with
   | None =>
       log Error "Failed to get CSRF token" ;;;
       write_cookie ;;;
       sys_exit 1
   | Some csrf =>
   article_response <- request_article_info env video_id csrf ;;
   match article_response with
   | None =>
       log Error "Failed to request article info" ;;;
       write_cookie ;;;
       sys_exit 1
   | Some article_response =>
   log Debug ("Response: " +:+ text article_response) ;;;
   match json_loads env (text article_response) with
   | JSONDecodeError json_error =>
       log Error ("Failed to decode article info, reason: " +:+ json_error) ;;;
       write_cookie ;;;
       sys_exit 1
   | Decoded result =>
   log Debug ("Receive object: " +:+ format_value env result) ;;;
   match export_scene env result with
   | Exc (KeyError key) =>
       log Error ("Failed to export article info, reason: " +:+ repr_key key
                  +:+ " cannot be found") ;;;
       write_cookie ;;;
       sys_exit 1
   | Exc e => raise e
   | Exit c => sys_exit c
   | Val scene =>
   log Debug ("Request of " +:+ video_id +:+ " finishes without issue") ;;;
   write_cookie ;;;
   ret scene
   end end end end end)%M.

(** [case "scene-by-fragment" | "scene-by-url"] *)
Definition recognized (op : string) : bool :=
  String.eqb op "scene-by-fragment" || String.eqb op "scene-by-url".

(** The body of [if __name__ == "__main__"], for the operation and the
    arguments that [scraper_args()] returns. *)
Definition main (env : Env) (op : string) (args : json) : M unit :=
  (video_id <-
     (if recognized op
      then lift (extract_id args)
      else
        log Error ("Operation: " +:+ op +:+ ", arguments: "
                   +:+ json_dumps env args) ;;;
        sys_exit 1) ;;
   match video_id with
   | Some id =>
       if String.eqb id "" then
         log Error "Failed to extract id from input" ;;; sys_exit 1
       else
         result <- send_request env id ;;
         emit (EvPrint (json_dumps env (scene_json result)))
   | None => log Error "Failed to extract id from input" ;;; sys_exit 1
   end)%M.

(** Exit status of the interpreter: 0 at the end of the script, the
    argument of [sys.exit], 1 for an exception nobody caught. *)
Definition exit_status {A} (r : res A) : Z :=
  match r with
  | Val _ => 0
  | Exit c => c
  | Exc _ => 1
  end.

Definition is_write (ev : event) : bool :=
  match ev with EvWriteCookie => true | _ => false end.

Definition is_get (ev : event) : bool :=
  match ev with EvGet _ => true | _ => false end.

Definition is_print (ev : event) : bool :=
  match ev with EvPrint _ => true | _ => false end.

Definition is_log (ev : event) : bool :=
  match ev with EvLog _ _ => true | _ => false end.

(** Number of times the session store was written in a trace. *)
Definition writes (tr : list event) : nat := length (List.filter is_write tr).

(** ** Predicates used in the statements *)

Fixpoint string_forall (p : ascii -> bool) (s : string) : bool :=
  match s with
  | String a s' => p a && string_forall p s'
  | EmptyString => true
  end.

Definition all_digits (s : string) : bool := string_forall is_digit s.

Definition no_newline (s : string) : bool :=
  string_forall (fun a => negb (is_newline a)) s.

Definition starts_with_digit (s : string) : bool :=
  match s with
  | String a _ => is_digit a
  | EmptyString => false
  end.

(** [t] begins with [/articles/] and five digits. *)
Definition article_at (t : string) : bool :=
  match strip_prefix "/articles/" t with
  | Some t' => bool_decide (is_Some (take_min is_digit 5 t'))
  | None => false
  end.

(** Some position of the first line of [t] begins with [/articles/] and
    five digits. *)
Fixpoint article_on_line (t : string) : bool :=
  article_at t ||
  match t with
  | String a t' => negb (is_newline a) && article_on_line t'
  | EmptyString => false
  end.

(** The sources of an identifier in a fragment whose fields have the
    documented types, in order: the url with the pattern for URLs, then
    the code, the title and each file path with the pattern for codes. *)
Definition candidates (url code title : option string) (paths : list string)
    : list (list tok * string) :=
  option_list (pair URL_SEARCH_PATTERN <$> url)
  ++ option_list (pair CODE_SEARCH_PATTERN <$> code)
  ++ option_list (pair CODE_SEARCH_PATTERN <$> title)
  ++ (pair CODE_SEARCH_PATTERN <$> paths).

(** First success wins. *)
Fixpoint first_match (cs : list (list tok * string)) : option string :=
  match cs with
  | [] => None
  | (pat, s) :: cs' =>
      match re_search pat s with
      | Some m => group1 m
      | None => first_match cs'
      end
  end.

(** The field [k] of a fragment is the string [o], or is absent or
    [null]. *)
Definition str_field (kv : list (string * json)) (k : string)
    (o : option string) : Prop :=
  match o with
  | Some s => assoc k kv = Some (JStr s)
  | None => assoc k kv = None \/ assoc k kv = Some JNull
  end.

Definition has_path (file : json) (p : string) : Prop :=
  exists d, file = JObj d /\ assoc "path" d = Some (JStr p).

(** The files of a fragment have the paths [paths], in this order. *)
Definition files_field (kv : list (string * json)) (paths : list string)
    : Prop :=
  match assoc "files" kv with
  | None => paths = []
  | Some (JArr l) => Forall2 has_path l paths
  | Some _ => False
  end.

(** The dict [d] without the key [k]. *)
Definition remove_key (k : string) (d : list (string * json))
    : list (string * json) :=
  List.filter (fun kv => negb (String.eqb kv.1 k)) d.

(** The keys the mapper expects in an article. *)
Definition expected_keys : list string :=
  ["tags"; "actresses"; "image_url"; "title"; "release_date"; "writer";
   "video_id"].

Definition has_name (x : json) : Prop :=
  exists d, x = JObj d /\ is_Some (assoc "name" d).

Definition has_name_id (x : json) : Prop :=
  exists d, x = JObj d /\ is_Some (assoc "name" d) /\ is_Some (assoc "id" d).

(** An article of the documented shape: [title], [release_date],
    [video_id], [image_url], [writer{name, slug}], [tags[{name}]],
    [actresses[{id, name}]]. *)
Definition article_shape (d : list (string * json)) : Prop :=
  (exists l, assoc "tags" d = Some (JArr l) /\ Forall has_name l) /\
  (exists l, assoc "actresses" d = Some (JArr l) /\ Forall has_name_id l) /\
  (exists s, assoc "image_url" d = Some (JStr s)) /\
  is_Some (assoc "title" d) /\
  is_Some (assoc "release_date" d) /\
  (exists w, assoc "writer" d = Some (JObj w) /\
             is_Some (assoc "name" w) /\ is_Some (assoc "slug" w)) /\
  is_Some (assoc "video_id" d).

(** Nothing of the session store or of the network shows between two
    states: the file, the cookies and the headers are the same and the
    trace grew by log lines only. *)
Definition untouched (st st' : State) : Prop :=
  cookie_file st' = cookie_file st /\
  cookies st' = cookies st /\
  headers st' = headers st /\
  exists logs, trace st' = trace st ++ logs /\ forallb is_log logs = true.

(** Sample surroundings for the examples: a site that answers every
    request with the same body and sets the XSRF cookie, a page with one
    token, and a decoder that yields a fixed value. *)
Definition sample_env (answer : json) : Env :=
  {| http_get := fun _ _ _ => Response "{}" [("XSRF-TOKEN", "x")];
     csrf_meta := fun _ => PageTokens ["token"];
     json_loads := fun _ => Decoded answer;
     json_dumps := fun _ => "";
     py_repr := fun _ => "" |}.

(** The state at the start of the script: a fresh session. *)
Definition start (file : option string) (can_read : bool)
    (write_err : option string) : State :=
  mkState file (if can_read then Readable else Unreadable) write_err ∅ ∅ [].

Definition is_val {A} (r : res A) : bool :=
  match r with Val _ => true | _ => false end.

(** The article of the examples, of the documented shape. *)
Definition sample_article_dict (image_url video_id : string)
    : list (string * json) :=
  [("title", JStr "A title");
   ("release_date", JStr "2024-01-31");
   ("video_id", JStr video_id);
   ("image_url", JStr image_url);
   ("writer", JObj [("name", JStr "A writer"); ("slug", JStr "a-writer")]);
   ("tags", JArr [JObj [("name", JStr "tag")]]);
   ("actresses", JArr [JObj [("id", JInt 42); ("name", JStr "Someone")]])].

Definition sample_article (image_url video_id : string) : json :=
  JObj [("article", JObj (sample_article_dict image_url video_id))].

(** ** Further predicates *)

(** [t] begins with five digits. *)
Definition five_digits (t : string) : bool :=
  bool_decide (is_Some (take_min is_digit 5 t)).

(** Some position of [s] begins with five digits. *)
Fixpoint has_run (s : string) : bool :=
  five_digits s ||
  match s with
  | String _ s' => has_run s'
  | EmptyString => false
  end.

(** No position of [pre], read in front of [t], begins with five digits. *)
Fixpoint no_run_before (pre t : string) : bool :=
  match pre with
  | EmptyString => true
  | String _ pre' => negb (five_digits (pre +:+ t)) && no_run_before pre' t
  end.

(** What is left of [s] after its longest prefix of characters in [p]. *)
Fixpoint drop_while (p : ascii -> bool) (s : string) : string :=
  match s with
  | String a s' => if p a then drop_while p s' else s
  | EmptyString => s
  end.

(** What leaves the process in a trace: the requests and the output. *)
Definition wire (tr : list event) : list event :=
  List.filter (fun ev => is_get ev || is_print ev) tr.

(** The jar holds a session cookie. *)
Definition has_session (st : State) : Prop :=
  is_Some (cookies st !! "fc2ppvdb_session").

(** The two addresses the script requests for an identifier. *)
Definition article_url (video_id : string) : string :=
  BASE_QUERY_URL +:+ "/articles/" +:+ video_id.

Definition api_url (video_id : string) : string :=
  BASE_QUERY_URL +:+ "/articles/article-info?videoid=" +:+ video_id.

(** The keys the mapper looks up, at any depth. *)
Definition looked_up_keys : list string :=
  ["article"; "tags"; "name"; "actresses"; "id"; "image_url"; "title";
   "release_date"; "writer"; "slug"; "video_id"].

(** From [st] to [st'] the session cookie is not lost and the cookie file
    and its permissions are the same. *)
Definition keeps (st st' : State) : Prop :=
  (has_session st -> has_session st') /\
  cookie_file st' = cookie_file st /\
  write_error st' = write_error st.


Definition is_exc {A} (r : res A) : bool :=
  match r with Exc _ => true | _ => false end.

(** The site answered a request for [u], under some headers and cookies,
    with [body]. *)
Definition fetched (env : Env) (u body : string) : Prop :=
  exists hdrs cks kvs, http_get env u hdrs cks = Response body kvs.

(** The article page of [video_id] was fetched and lxml found a token in
    it. *)
Definition token_found (env : Env) (video_id : string) : Prop :=
  exists page csrf rest,
    fetched env (article_url video_id) page /\
    csrf_meta env page = PageTokens (csrf :: rest).

(** The API answered the request for [video_id] with a body that decodes
    to [result]. *)
Definition answered (env : Env) (video_id : string) (result : json) : Prop :=
  exists body,
    fetched env (api_url video_id) body /\
    json_loads env body = Decoded result.

(** The exceptions that leave [send_request] with no handler on their
    way: the cookie file is not UTF-8, lxml raises on the fetched page, or
    the mapper raises something else than [KeyError] on the decoded
    answer. *)
Definition uncaught (env : Env) (video_id : string) (st : State) (e : exn)
    : Prop :=
  (e = UnicodeDecodeError /\ open_read st = ReadUndecodable) \/
  (exists page,
     fetched env (article_url video_id) page /\
     csrf_meta env page = PageError e) \/
  ((forall k, e <> KeyError k) /\
   exists result,
     answered env video_id result /\ export_scene env result = Exc e).


(** ** Definitions used in the proofs *)

(** What follows [.+] in the pattern for URLs. *)
Definition url_tail : list tok :=
  [TLit "/articles/"; TOpen; TRep CDigit 5 true; TClose; TRep CAny 0 true].

(** [sat_at st m Q]: from [st], [m] extends the trace by some events
    [evs] and ends in a result [r] with [Q r evs]; [sat m Q]: from every
    state. *)
Definition sat_at {A} (st : State) (m : M A)
    (Q : res A -> list event -> Prop) : Prop :=
  exists evs, trace (m st).2 = trace st ++ evs /\ Q (m st).1 evs.

Definition sat {A} (m : M A) (Q : res A -> list event -> Prop) : Prop :=
  forall st, sat_at st m Q.

(** [m] returns a value and leaves the trace alone. *)
Definition quiet {A} (m : M A) : Prop :=
  forall st, exists a, (m st).1 = Val a /\ trace (m st).2 = trace st.

(** [r] is not a [sys.exit]. *)
Definition no_exit {A} (r : res A) : Prop := forall c, r <> Exit c.

(** What a run of [send_request] from [st] can end in:
    - a scene, mapped from the decoded answer of the API, after one write
      and the two requests;
    - [sys.exit(1)] after one write;
    - an exception: [TypeError] out of the one write, or an exception no
      handler is in the way of, with no write at all;
    and what it put on the wire: nothing, the page request, or the page
    request and, with the token of the page, the API request. *)
Definition send_request_post (env : Env) (video_id : string) (st : State)
    (r : res ScrapedScene) (evs : list event) : Prop :=
  match r with
  | Val scene =>
      writes evs = 1 /\
      wire evs = [EvGet (article_url video_id); EvGet (api_url video_id)] /\
      exists result,
        answered env video_id result /\ export_scene env result = Val scene
  | Exit c => c = 1%Z /\ writes evs = 1
  | Exc e =>
      (e = TypeError /\ writes evs = 1) \/
      (writes evs = 0 /\ uncaught env video_id st e)
  end /\
  (wire evs = [] \/
   wire evs = [EvGet (article_url video_id)] \/
   (wire evs = [EvGet (article_url video_id); EvGet (api_url video_id)] /\
    token_found env video_id)).


(** * Properties *)

(** ** Strings *)

Lemma append_cons (a : ascii) (s t : string) :
  String a s +:+ t = String a (s +:+ t).
Proof. reflexivity. Qed.

Lemma append_nil_l (t : string) : "" +:+ t = t.
Proof. reflexivity. Qed.

(** [String.append] does not unfold under [simpl]; this does it. *)
Ltac sapp := rewrite ?append_cons, ?append_nil_l.

Lemma append_nil_r (s : string) : s +:+ "" = s.
Proof. induction s as [|a s IH]; sapp; [done | by rewrite IH]. Qed.

Lemma append_assoc (s t u : string) : (s +:+ t) +:+ u = s +:+ t +:+ u.
Proof. induction s as [|a s IH]; sapp; [done | by rewrite IH]. Qed.

Lemma length_append (s t : string) :
  String.length (s +:+ t) = String.length s + String.length t.
Proof. induction s as [|a s IH]; sapp; simpl; [done | by rewrite IH]. Qed.

Lemma substring_prefix (s t : string) :
  String.substring 0 (String.length s) (s +:+ t) = s.
Proof.
  induction s as [|a s IH]; sapp; simpl.
  - by destruct t.
  - by rewrite IH.
Qed.

Lemma consumed_append (s t : string) : consumed (s +:+ t) t = s.
Proof.
  unfold consumed. rewrite length_append.
  replace (String.length s + String.length t - String.length t)
    with (String.length s) by lia.
  apply substring_prefix.
Qed.

Lemma digit_not_slash (a : ascii) : is_digit a = true -> Ascii.eqb "/" a = false.
Proof.
  destruct a as [[] [] [] [] [] [] [] []]; vm_compute; congruence.
Qed.

Lemma digit_not_a (a : ascii) : is_digit a = true -> Ascii.eqb "a" a = false.
Proof.
  destruct a as [[] [] [] [] [] [] [] []]; vm_compute; congruence.
Qed.

(** ** The matcher *)

Section Repetition.
Context {A : Type} (p : ascii -> bool) (k : string -> option A).

(** A greedy repetition in front of a part that cannot fail stops
    nowhere but at the end of the run. *)
Lemma greedy_more_run (d rest : string) (r : A) :
  string_forall p d = true ->
  match rest with String a _ => p a | EmptyString => false end = false ->
  k rest = Some r ->
  greedy_more p (d +:+ rest) k = Some r.
Proof.
  intros Hd Hrest Hk. induction d as [|a d IH]; sapp; simpl in *.
  - destruct rest as [|b rest']; simpl; [done |]. by rewrite Hrest.
  - apply andb_prop in Hd as [-> Hd]. by rewrite (IH Hd).
Qed.

(** Characters given to the repetition in front of a success stay
    given. *)
Lemma greedy_more_prefix (pre t : string) (r : A) :
  string_forall p pre = true ->
  greedy_more p t k = Some r ->
  greedy_more p (pre +:+ t) k = Some r.
Proof.
  intros Hpre Ht. induction pre as [|a pre IH]; sapp; simpl in *; [done |].
  apply andb_prop in Hpre as [-> Hpre]. by rewrite (IH Hpre).
Qed.

Lemma greedy_more_inv (s : string) (r : A) :
  greedy_more p s k = Some r -> exists s', k s' = Some r.
Proof.
  induction s as [|a s IH]; simpl; [eauto |].
  destruct (p a); [| eauto].
  destruct (greedy_more p s k) eqn:E; [| eauto].
  intros [= <-]. by apply IH.
Qed.

Lemma lazy_more_inv (s : string) (r : A) :
  lazy_more p s k = Some r -> exists s', k s' = Some r.
Proof.
  induction s as [|a s IH]; simpl.
  - destruct (k "") eqn:E; [intros [= <-]; eauto | done].
  - destruct (k (String a s)) eqn:E; [intros [= <-]; eauto |].
    destruct (p a); [apply IH | done].
Qed.
End Repetition.

Lemma greedy_more_cons {A} (p : ascii -> bool) (k : string -> option A)
    (a : ascii) (s : string) :
  greedy_more p (String a s) k
  = if p a then
      match greedy_more p s k with
      | Some r => Some r
      | None => k (String a s)
      end
    else k (String a s).
Proof. reflexivity. Qed.

Lemma greedy_more_total {A} (p : ascii -> bool) (s : string) (r : A) :
  greedy_more p s (fun _ => Some r) = Some r.
Proof.
  induction s as [|a s IH]; simpl; [done |].
  destruct (p a); [by rewrite IH | done].
Qed.

(** The end of both patterns, [).*], closes the group and cannot fail. *)
Lemma pmatch_close (s : string) (m : rmatch) :
  pmatch [TClose; TRep CAny 0 true] s m
  = Some (mkMatch (g_open m) (Some (consumed (g_open m) s))).
Proof. simpl. apply greedy_more_total. Qed.

Lemma take_min_run (p : ascii -> bool) (n : nat) (d rest : string) :
  string_forall p d = true ->
  n <= String.length d ->
  exists d1 d2,
    d = d1 +:+ d2 /\ string_forall p d2 = true /\
    take_min p n (d +:+ rest) = Some (d2 +:+ rest).
Proof.
  revert d. induction n as [|n IH]; intros d Hd Hn.
  - by exists "", d.
  - destruct d as [|a d]; simpl in *; [lia |].
    apply andb_prop in Hd as [Ha Hd].
    destruct (IH d Hd ltac:(lia)) as (d1 & d2 & -> & H2 & Ht).
    exists (String a d1), d2. sapp. simpl. by rewrite Ha.
Qed.

(** The group of digits, matched at the start of a run of at least five
    digits that no digit follows, is the whole run. *)
Lemma pmatch_digits (ds rest : string) (m : rmatch) :
  all_digits ds = true ->
  5 <= String.length ds ->
  starts_with_digit rest = false ->
  pmatch [TOpen; TRep CDigit 5 true; TClose; TRep CAny 0 true] (ds +:+ rest) m
  = Some (mkMatch (ds +:+ rest) (Some ds)).
Proof.
  intros Hd Hlen Hrest.
  destruct (take_min_run is_digit 5 ds rest Hd Hlen) as (d1 & d2 & E & H2 & Ht).
  change (pmatch [TOpen; TRep CDigit 5 true; TClose; TRep CAny 0 true]
            (ds +:+ rest) m)
    with (match take_min is_digit 5 (ds +:+ rest) with
          | Some s1 =>
              greedy_more is_digit s1
                (fun s2 => pmatch [TClose; TRep CAny 0 true] s2
                             (mkMatch (ds +:+ rest) None))
          | None => None
          end).
  rewrite Ht.
  erewrite greedy_more_run; [reflexivity | done | done |].
  rewrite pmatch_close. simpl. by rewrite consumed_append.
Qed.

(** The equations of [pmatch], for rewriting without unfolding the
    helpers. *)
Lemma pmatch_lit (l : string) (pat : list tok) (s : string) (m : rmatch) :
  pmatch (TLit l :: pat) s m
  = match strip_prefix l s with
    | Some s' => pmatch pat s' m
    | None => None
    end.
Proof. reflexivity. Qed.

Lemma pmatch_rep (c : cclass) (min : nat) (greedy : bool) (pat : list tok)
    (s : string) (m : rmatch) :
  pmatch (TRep c min greedy :: pat) s m
  = match take_min (in_class c) min s with
    | Some s1 =>
        (if greedy then greedy_more else lazy_more)
          (in_class c) s1 (fun s2 => pmatch pat s2 m)
    | None => None
    end.
Proof. reflexivity. Qed.

Lemma pmatch_open (pat : list tok) (s : string) (m : rmatch) :
  pmatch (TOpen :: pat) s m = pmatch pat s (mkMatch s None).
Proof. reflexivity. Qed.

Lemma strip_prefix_cons (a b : ascii) (l s : string) :
  strip_prefix (String a l) (String b s)
  = if Ascii.eqb a b then strip_prefix l s else None.
Proof. reflexivity. Qed.

Lemma strip_prefix_append (l s : string) : strip_prefix l (l +:+ s) = Some s.
Proof.
  induction l as [|a l IH]; sapp; simpl; [done |].
  by rewrite Ascii.eqb_refl.
Qed.

Lemma url_tail_some (ds rest : string) (m : rmatch) :
  all_digits ds = true ->
  5 <= String.length ds ->
  starts_with_digit rest = false ->
  pmatch url_tail ("/articles/" +:+ ds +:+ rest) m
  = Some (mkMatch (ds +:+ rest) (Some ds)).
Proof.
  intros. unfold url_tail.
  rewrite pmatch_lit, strip_prefix_append. by apply pmatch_digits.
Qed.

Lemma url_tail_none (t : string) (m : rmatch) :
  article_at t = false -> pmatch url_tail t m = None.
Proof.
  unfold article_at, url_tail. intros H. rewrite pmatch_lit.
  destruct (strip_prefix "/articles/" t) as [t'|]; [| done].
  rewrite pmatch_open, pmatch_rep.
  change (in_class CDigit) with is_digit.
  destruct (take_min is_digit 5 t') as [s1|]; [| done].
  apply bool_decide_eq_false in H. destruct H. eauto.
Qed.

(** No position of the line starts an article: [.+] gives back every
    character in vain. *)
Lemma greedy_more_no_article (t : string) (m : rmatch) :
  article_on_line t = false ->
  greedy_more (in_class CAny) t (fun s => pmatch url_tail s m) = None.
Proof.
  induction t as [|a t IH]; intros H.
  - reflexivity.
  - change (article_on_line (String a t))
      with (article_at (String a t) ||
            (negb (is_newline a) && article_on_line t)) in H.
    apply orb_false_elim in H as [Hat H].
    rewrite greedy_more_cons. change (in_class CAny a) with (negb (is_newline a)).
    destruct (negb (is_newline a)); simpl in H.
    + rewrite (IH H). by apply url_tail_none.
    + by apply url_tail_none.
Qed.

Lemma article_on_line_cons (a : ascii) (t : string) :
  article_on_line (String a t)
  = article_at (String a t) || (negb (is_newline a) && article_on_line t).
Proof. reflexivity. Qed.

Lemma article_at_other (a : ascii) (t : string) :
  Ascii.eqb "/" a = false -> article_at (String a t) = false.
Proof. intros H. unfold article_at. by rewrite strip_prefix_cons, H. Qed.

Lemma article_on_line_other (a : ascii) (t : string) :
  Ascii.eqb "/" a = false ->
  article_on_line t = false ->
  article_on_line (String a t) = false.
Proof.
  intros Ha Ht.
  rewrite article_on_line_cons, (article_at_other _ _ Ha), Ht.
  apply andb_false_r.
Qed.

Lemma article_on_line_slash_digit (a : ascii) (t : string) :
  is_digit a = true ->
  article_on_line (String a t) = false ->
  article_on_line (String "/" (String a t)) = false.
Proof.
  intros Ha Ht. rewrite article_on_line_cons, Ht.
  unfold article_at. by rewrite !strip_prefix_cons, (digit_not_a a Ha).
Qed.

(** Inside and after a run of digits, no article starts before [rest]. *)
Lemma article_on_line_digits (ds rest : string) :
  all_digits ds = true ->
  article_on_line rest = false ->
  article_on_line (ds +:+ rest) = false.
Proof.
  intros Hd Hrest. induction ds as [|a ds IH]; sapp; [done |].
  simpl in Hd. apply andb_prop in Hd as [Ha Hd].
  apply article_on_line_other; [by apply digit_not_slash | by apply IH].
Qed.

(** No article starts inside [/articles/] followed by digits either. *)
Lemma article_on_line_inside (ds rest : string) :
  all_digits ds = true ->
  1 <= String.length ds ->
  article_on_line rest = false ->
  article_on_line ("articles/" +:+ ds +:+ rest) = false.
Proof.
  intros Hd Hlen Hrest.
  pose proof (article_on_line_digits ds rest Hd Hrest) as Htail.
  destruct ds as [|a ds]; simpl in Hlen; [lia |].
  simpl in Hd. apply andb_prop in Hd as [Ha Hd].
  revert Htail. sapp. intros Htail.
  do 8 (apply article_on_line_other; [reflexivity |]).
  by apply article_on_line_slash_digit.
Qed.

(** The pattern for URLs at the start of a line that has some character in
    front of its last article. *)
Lemma pmatch_url (pre ds rest : string) (m : rmatch) :
  pre <> "" ->
  no_newline pre = true ->
  all_digits ds = true ->
  5 <= String.length ds ->
  starts_with_digit rest = false ->
  article_on_line rest = false ->
  pmatch URL_SEARCH_PATTERN (pre +:+ "/articles/" +:+ ds +:+ rest) m
  = Some (mkMatch (ds +:+ rest) (Some ds)).
Proof.
  intros Hpre Hnl Hd Hlen Hrest Hlast.
  destruct pre as [|c pre]; [done |]. clear Hpre.
  simpl in Hnl. apply andb_prop in Hnl as [Hc Hnl].
  change URL_SEARCH_PATTERN with (TRep CAny 1 true :: url_tail).
  rewrite pmatch_rep. sapp. simpl take_min.
  change (in_class CAny c) with (negb (is_newline c)). rewrite Hc.
  apply greedy_more_prefix; [exact Hnl |].
  rewrite greedy_more_cons. change (in_class CAny "/") with true.
  cbv iota.
  rewrite greedy_more_no_article.
  - change (String "/" ("articles/" +:+ ds +:+ rest))
      with ("/articles/" +:+ ds +:+ rest).
    by apply url_tail_some.
  - apply article_on_line_inside; [done | lia | done].
Qed.

(** A match of either pattern has closed its group. *)
Lemma pmatch_group (s : string) (m0 m : rmatch) :
  pmatch [TOpen; TRep CDigit 5 true; TClose; TRep CAny 0 true] s m0 = Some m ->
  is_Some (group1 m).
Proof.
  rewrite pmatch_open, pmatch_rep.
  destruct (take_min (in_class CDigit) 5 s) as [s1|]; [| done].
  intros H. apply greedy_more_inv in H as [s' H].
  rewrite pmatch_close in H. injection H as <-. by eexists.
Qed.

Lemma pmatch_url_group (s : string) (m0 m : rmatch) :
  pmatch URL_SEARCH_PATTERN s m0 = Some m -> is_Some (group1 m).
Proof.
  change URL_SEARCH_PATTERN with (TRep CAny 1 true :: url_tail).
  rewrite pmatch_rep.
  destruct (take_min (in_class CAny) 1 s) as [s1|]; [| done].
  intros H. apply greedy_more_inv in H as [s' H].
  unfold url_tail in H. rewrite pmatch_lit in H.
  destruct (strip_prefix "/articles/" s') as [s''|]; [| done].
  by apply pmatch_group in H.
Qed.

Lemma pmatch_code_group (s : string) (m0 m : rmatch) :
  pmatch CODE_SEARCH_PATTERN s m0 = Some m -> is_Some (group1 m).
Proof.
  unfold CODE_SEARCH_PATTERN. rewrite pmatch_rep.
  destruct (take_min (in_class CAny) 0 s) as [s1|]; [| done].
  intros H. apply lazy_more_inv in H as [s' H].
  by apply pmatch_group in H.
Qed.

Lemma re_search_inv (pat : list tok) (s : string) (m : rmatch) :
  re_search pat s = Some m -> exists s', pmatch pat s' (mkMatch s' None) = Some m.
Proof.
  induction s as [|a s IH]; simpl.
  - destruct (pmatch pat "" _) eqn:E; [intros [= <-]; eauto | done].
  - destruct (pmatch pat (String a s) _) eqn:E; [intros [= <-]; eauto | done].
Qed.

Lemma re_search_group (pat : list tok) (s : string) (m : rmatch) :
  pat = URL_SEARCH_PATTERN \/ pat = CODE_SEARCH_PATTERN ->
  re_search pat s = Some m ->
  is_Some (group1 m).
Proof.
  intros Hpat H. apply re_search_inv in H as [s' H].
  destruct Hpat as [-> | ->];
    [by eapply pmatch_url_group | by eapply pmatch_code_group].
Qed.

Lemma re_search_here (pat : list tok) (s : string) (m : rmatch) :
  pmatch pat s (mkMatch s None) = Some m -> re_search pat s = Some m.
Proof. intros H. destruct s; simpl; by rewrite H. Qed.

(** ** Identifier extraction *)

(** The greedy [.+] of the pattern for URLs settles on the last article of
    the line. *)
Example extract_id_last_article :
  extract_id
    (JObj [("url", JStr "https://fc2ppvdb.com/articles/11111/articles/22222")])
  = Val (Some "22222").
Proof. reflexivity. Qed.

(** The lazy [.*?] of the pattern for codes settles on the first run of
    five digits or more, and takes all of it. *)
Example extract_id_first_run :
  extract_id (JObj [("code", JStr "FC2-PPV-123 7654321 99999")])
  = Val (Some "7654321").
Proof. reflexivity. Qed.

(** A [files] key that holds [null] is not a missing key. *)
Example extract_id_files_null :
  extract_id (JObj [("title", JStr "untitled"); ("files", JNull)])
  = Exc TypeError.
Proof. reflexivity. Qed.

Lemma search_field_absent (pat : list tok) (kv : list (string * json))
    (k : string) :
  assoc k kv = None -> search_field pat (JObj kv) k = Val None.
Proof. intros H. unfold search_field. simpl. by rewrite H. Qed.

Lemma search_field_str (pat : list tok) (kv : list (string * json))
    (k s : string) :
  re_search pat "" = None ->
  assoc k kv = Some (JStr s) ->
  search_field pat (JObj kv) k = Val (group1 <$> re_search pat s).
Proof.
  intros Hpat H. unfold search_field, py_get. rewrite H.
  cbn [res_bind from_option id].
  destruct s as [|a s]; [by rewrite Hpat |].
  change (truthy (JStr (String a s))) with true. cbv iota.
  unfold py_search. cbn [res_bind].
  by destruct (re_search pat (String a s)).
Qed.

Lemma search_field_field (pat : list tok) (kv : list (string * json))
    (k : string) (o : option string) :
  re_search pat "" = None ->
  str_field kv k o ->
  search_field pat (JObj kv) k
  = Val (match o with
         | Some s => group1 <$> re_search pat s
         | None => None
         end).
Proof.
  intros Hpat H. destruct o as [s|].
  - by apply search_field_str.
  - destruct H as [H | H]; [by apply search_field_absent |].
    unfold search_field, py_get. by rewrite H.
Qed.

Lemma search_files_paths (l : list json) (paths : list string) :
  Forall2 has_path l paths ->
  search_files l = Val (first_match (pair CODE_SEARCH_PATTERN <$> paths)).
Proof.
  induction 1 as [|file p l paths (d & -> & Hp) Hl IH]; [done |].
  change (search_files (JObj d :: l))
    with (res_bind (subscript (JObj d) "path") (fun path =>
          res_bind (py_search CODE_SEARCH_PATTERN path) (fun search =>
            match search with
            | Some m => Val (group1 m)
            | None => search_files l
            end))).
  unfold subscript. rewrite Hp. simpl res_bind.
  rewrite fmap_cons. simpl first_match.
  by destruct (re_search CODE_SEARCH_PATTERN p).
Qed.

Lemma first_match_none (cs : list (list tok * string)) :
  Forall (fun c => c.1 = URL_SEARCH_PATTERN \/ c.1 = CODE_SEARCH_PATTERN) cs ->
  first_match cs = None <-> Forall (fun c => re_search c.1 c.2 = None) cs.
Proof.
  induction 1 as [|[pat s] cs Hpat Hcs IH]; simpl.
  - split; [constructor | done].
  - destruct (re_search pat s) as [m|] eqn:E.
    + destruct (re_search_group pat s m Hpat E) as [id Hid]. rewrite Hid.
      split; [done |]. intros H. apply Forall_cons in H as [H _].
      simpl in H. congruence.
    + rewrite IH, Forall_cons. simpl. tauto.
Qed.

Lemma candidates_patterns (url code title : option string)
    (paths : list string) :
  Forall (fun c => c.1 = URL_SEARCH_PATTERN \/ c.1 = CODE_SEARCH_PATTERN)
    (candidates url code title paths).
Proof.
  unfold candidates. rewrite !Forall_app. repeat split.
  - destruct url; repeat constructor; by left.
  - destruct code; repeat constructor; by right.
  - destruct title; repeat constructor; by right.
  - apply Forall_fmap, Forall_true. by right.
Qed.

(** C3, as the code has it. When the url of a fragment is
    [pre ++ "/articles/" ++ ds ++ rest], where [pre] is not empty and has
    no line feed, [ds] is a run of at least five digits that no digit
    follows, and no later position of the same line starts [/articles/]
    and five digits, [extract_id] returns exactly [ds], whatever the other
    fields of the fragment are. *)
Theorem extract_id_url_run (kv : list (string * json)) (pre ds rest : string) :
  assoc "url" kv = Some (JStr (pre +:+ "/articles/" +:+ ds +:+ rest)) ->
  pre <> "" ->
  no_newline pre = true ->
  all_digits ds = true ->
  5 <= String.length ds ->
  starts_with_digit rest = false ->
  article_on_line rest = false ->
  extract_id (JObj kv) = Val (Some ds).
Proof.
  intros Hurl Hpre Hnl Hd Hlen Hrest Hlast. unfold extract_id.
  rewrite (search_field_str URL_SEARCH_PATTERN _ _ _ eq_refl Hurl).
  rewrite (re_search_here _ _ _
             (pmatch_url pre ds rest _ Hpre Hnl Hd Hlen Hrest Hlast)).
  reflexivity.
Qed.

Lemma extract_id_url_run_witness :
  extract_id
    (JObj [("code", JInt 7); ("files", JNull);
           ("url", JStr "https://fc2ppvdb.com/articles/1234567?page=2")])
  = Val (Some "1234567").
Proof.
  apply (extract_id_url_run _ "https://fc2ppvdb.com" "1234567" "?page=2");
    [reflexivity | discriminate | reflexivity | reflexivity | simpl; lia
    | reflexivity | reflexivity].
Defined.

(** C3, as the claim states it, fails: [.+] needs a character in front of
    [/articles/], so a url that starts with [/articles/12345] yields no
    identifier. *)
Lemma extract_id_url_counterexample :
  ~ (forall (kv : list (string * json)) (pre ds rest : string),
       assoc "url" kv = Some (JStr (pre +:+ "/articles/" +:+ ds +:+ rest)) ->
       all_digits ds = true ->
       5 <= String.length ds ->
       starts_with_digit rest = false ->
       extract_id (JObj kv) = Val (Some ds)).
Proof.
  intros H.
  specialize (H [("url", JStr "/articles/12345")] "" "12345" ""
                eq_refl eq_refl ltac:(simpl; lia) eq_refl).
  vm_compute in H. discriminate.
Qed.

(** C4. When url and code are both present and each matches its pattern,
    [extract_id] returns the group of the url's match; that group is a
    string, and when the code's group differs from it the code's group is
    not what is returned. *)
Theorem extract_id_url_before_code (kv : list (string * json))
    (u c : string) (mu mc : rmatch) :
  assoc "url" kv = Some (JStr u) ->
  assoc "code" kv = Some (JStr c) ->
  re_search URL_SEARCH_PATTERN u = Some mu ->
  re_search CODE_SEARCH_PATTERN c = Some mc ->
  extract_id (JObj kv) = Val (group1 mu) /\
  is_Some (group1 mu) /\
  (group1 mc <> group1 mu -> extract_id (JObj kv) <> Val (group1 mc)).
Proof.
  intros Hurl Hcode Hu Hc.
  assert (extract_id (JObj kv) = Val (group1 mu)) as E.
  { unfold extract_id.
    rewrite (search_field_str URL_SEARCH_PATTERN _ _ _ eq_refl Hurl), Hu. reflexivity. }
  split; [exact E |]. split.
  - eapply re_search_group; [by left | exact Hu].
  - intros Hne. rewrite E. congruence.
Qed.

Lemma extract_id_url_before_code_witness :
  extract_id
    (JObj [("code", JStr "FC2-PPV-7654321");
           ("url", JStr "https://fc2ppvdb.com/articles/1234567")])
  = Val (Some "1234567").
Proof.
  pose proof (extract_id_url_before_code
    [("code", JStr "FC2-PPV-7654321");
     ("url", JStr "https://fc2ppvdb.com/articles/1234567")]
    "https://fc2ppvdb.com/articles/1234567" "FC2-PPV-7654321"
    (mkMatch "1234567" (Some "1234567"))
    (mkMatch "7654321" (Some "7654321"))
    eq_refl eq_refl eq_refl eq_refl) as [E _].
  exact E.
Defined.

(** C10. On a fragment whose fields have the documented types, a source
    that does not match does not end the extraction: [extract_id] answers
    with the first match among the url, the code, the title and the file
    paths, in this order, and answers [None] exactly when none of them
    matches. *)
Theorem extract_id_first_match (kv : list (string * json))
    (url code title : option string) (paths : list string) :
  str_field kv "url" url ->
  str_field kv "code" code ->
  str_field kv "title" title ->
  files_field kv paths ->
  extract_id (JObj kv) = Val (first_match (candidates url code title paths)) /\
  (extract_id (JObj kv) = Val None <->
   Forall (fun c => re_search c.1 c.2 = None)
     (candidates url code title paths)).
Proof.
  intros Hurl Hcode Htitle Hfiles.
  assert (extract_id (JObj kv)
          = Val (first_match (candidates url code title paths))) as E.
  { unfold extract_id.
    rewrite (search_field_field URL_SEARCH_PATTERN _ _ _ eq_refl Hurl).
    rewrite (search_field_field CODE_SEARCH_PATTERN _ _ _ eq_refl Hcode).
    rewrite (search_field_field CODE_SEARCH_PATTERN _ _ _ eq_refl Htitle).
    assert (res_bind (py_get_list (JObj kv) "files") (fun files =>
              res_bind (py_iter files) search_files)
            = Val (first_match (pair CODE_SEARCH_PATTERN <$> paths))) as Ef.
    { unfold files_field in Hfiles. unfold py_get_list.
      destruct (assoc "files" kv) as [[| | | |l|]|]; try done.
      - by apply search_files_paths.
      - by subst paths. }
    unfold candidates.
    set (F := res_bind (py_get_list (JObj kv) "files") _) in *.
    clearbody F. subst F.
    destruct url as [u|], code as [c|], title as [t|]; simpl;
      repeat match goal with
        | |- context [re_search ?p ?s] => destruct (re_search p s); simpl
        end;
      reflexivity. }
  split; [exact E |].
  rewrite E, <- first_match_none by apply candidates_patterns.
  split; [by intros [= ->] | by intros ->].
Qed.

Lemma extract_id_first_match_witness :
  extract_id
    (JObj [("url", JStr "https://fc2ppvdb.com/search?q=1234");
           ("code", JNull);
           ("title", JStr "no digits");
           ("files", JArr [JObj [("path", JStr "/media/a.mp4")];
                           JObj [("path", JStr "/media/FC2-PPV-7654321.mp4")]])])
  = Val (Some "7654321").
Proof.
  pose proof (extract_id_first_match
    [("url", JStr "https://fc2ppvdb.com/search?q=1234");
     ("code", JNull);
     ("title", JStr "no digits");
     ("files", JArr [JObj [("path", JStr "/media/a.mp4")];
                     JObj [("path", JStr "/media/FC2-PPV-7654321.mp4")]])]
    (Some "https://fc2ppvdb.com/search?q=1234") None (Some "no digits")
    ["/media/a.mp4"; "/media/FC2-PPV-7654321.mp4"]
    eq_refl (or_intror eq_refl) eq_refl) as H.
  destruct H as [E _].
  - repeat constructor; eexists; split; reflexivity.
  - exact E.
Defined.

(** ** Session store *)

(** Unfolding of the state monad, leaving maps and strings alone. *)
Ltac run :=
  cbv beta delta [bind ret emit log sys_exit raise lift set_file
                  set_cookies_of update_headers get_state] iota;
  cbn [cookie_file readable write_error cookies headers trace fst snd].

(** [write_cookie], evaluated. *)
Lemma write_cookie_run (st : State) :
  write_cookie st
  = match write_error st with
    | Some err =>
        (Val tt,
         mkState (cookie_file st) (readable st) (write_error st) (cookies st)
                 (headers st)
                 ((trace st ++ [EvWriteCookie])
                  ++ [EvLog Error ("Failed to write cookie to file, err: " +:+ err)]))
    | None =>
        match cookies st !! "fc2ppvdb_session" with
        | Some c =>
            (Val tt,
             mkState (Some c) (readable st) (write_error st) (cookies st)
                     (headers st)
                     ((trace st ++ [EvWriteCookie])
                      ++ [EvLog Debug ("Write new cookie to file: " +:+ c)]))
        | None =>
            (Exc TypeError,
             mkState (Some "") (readable st) (write_error st) (cookies st)
                     (headers st) (trace st ++ [EvWriteCookie]))
        end
    end.
Proof.
  unfold write_cookie. run.
  destruct (write_error st); [reflexivity |]. run.
  destruct (cookies st !! "fc2ppvdb_session"); reflexivity.
Qed.

(** C1, what the code does. With no session cookie in the jar,
    [write_cookie] empties the file and then raises [TypeError] from
    [f.write(None)]: it neither writes the empty string nor returns. When
    the file cannot be opened for writing, the error is logged and
    [write_cookie] returns. *)
Theorem write_cookie_no_session (st : State) :
  cookies st !! "fc2ppvdb_session" = None ->
  write_cookie st
  = match write_error st with
    | None =>
        (Exc TypeError,
         mkState (Some "") (readable st) (write_error st) (cookies st)
                 (headers st) (trace st ++ [EvWriteCookie]))
    | Some err =>
        (Val tt,
         mkState (cookie_file st) (readable st) (write_error st) (cookies st)
                 (headers st)
                 ((trace st ++ [EvWriteCookie])
                  ++ [EvLog Error ("Failed to write cookie to file, err: " +:+ err)]))
    end.
Proof.
  intros H. rewrite write_cookie_run, H. by destruct (write_error st).
Qed.

Lemma write_cookie_no_session_witness :
  write_cookie (mkState None Readable None ∅ ∅ [])
  = (Exc TypeError, mkState (Some "") Readable None ∅ ∅ [EvWriteCookie]).
Proof.
  exact (write_cookie_no_session (mkState None Readable None ∅ ∅ []) eq_refl).
Defined.

(** ** A logic of traces *)

Section Logic.
Context {A B : Type}.

Lemma sat_weaken (m : M A) (Q Q' : res A -> list event -> Prop) :
  sat m Q -> (forall r evs, Q r evs -> Q' r evs) -> sat m Q'.
Proof. intros H HQ st. destruct (H st) as (evs & ? & ?). exists evs. eauto. Qed.

Lemma sat_ret (a : A) (Q : res A -> list event -> Prop) :
  Q (Val a) [] -> sat (ret a) Q.
Proof. intros H st. exists []. simpl. by rewrite app_nil_r. Qed.

Lemma sat_exit (c : Z) (Q : res A -> list event -> Prop) :
  Q (Exit c) [] -> sat (sys_exit c) Q.
Proof. intros H st. exists []. simpl. by rewrite app_nil_r. Qed.

Lemma sat_raise (e : exn) (Q : res A -> list event -> Prop) :
  Q (Exc e) [] -> sat (raise e) Q.
Proof. intros H st. exists []. simpl. by rewrite app_nil_r. Qed.

Lemma sat_at_bind (st : State) (m : M A) (k : A -> M B)
    (R : res A -> list event -> Prop) (Q : res B -> list event -> Prop) :
  sat_at st m R ->
  (forall a e1, R (Val a) e1 -> sat (k a) (fun r e2 => Q r (e1 ++ e2))) ->
  (forall c e1, R (Exit c) e1 -> Q (Exit c) e1) ->
  (forall e e1, R (Exc e) e1 -> Q (Exc e) e1) ->
  sat_at st (bind m k) Q.
Proof.
  intros Hm Hk Hexit Hexc. unfold sat_at, bind.
  destruct Hm as (e1 & Ht & HR).
  destruct (m st) as [[a|c|e] st1]; simpl in *.
  - destruct (Hk a e1 HR st1) as (e2 & Ht2 & HQ).
    exists (e1 ++ e2). split; [| done].
    by rewrite Ht2, Ht, app_assoc.
  - exists e1. eauto.
  - exists e1. eauto.
Qed.

Lemma sat_bind (m : M A) (k : A -> M B)
    (R : res A -> list event -> Prop) (Q : res B -> list event -> Prop) :
  sat m R ->
  (forall a e1, R (Val a) e1 -> sat (k a) (fun r e2 => Q r (e1 ++ e2))) ->
  (forall c e1, R (Exit c) e1 -> Q (Exit c) e1) ->
  (forall e e1, R (Exc e) e1 -> Q (Exc e) e1) ->
  sat (bind m k) Q.
Proof. intros Hm Hk Hexit Hexc st. eapply sat_at_bind; eauto. Qed.

Lemma sat_bind_quiet (m : M A) (k : A -> M B)
    (Q : res B -> list event -> Prop) :
  quiet m -> (forall a, sat (k a) Q) -> sat (bind m k) Q.
Proof.
  intros Hm Hk st. unfold sat_at, bind.
  destruct (Hm st) as (a & Hr & Ht).
  destruct (m st) as [r st1]; simpl in *. subst r.
  destruct (Hk a st1) as (evs & Ht2 & HQ).
  exists evs. by rewrite Ht2, Ht.
Qed.
End Logic.

Lemma sat_emit (ev : event) (Q : res unit -> list event -> Prop) :
  Q (Val tt) [ev] -> sat (emit ev) Q.
Proof. intros H st. exists [ev]. done. Qed.

Lemma sat_bind_emit {B} (ev : event) (k : unit -> M B)
    (Q : res B -> list event -> Prop) :
  sat (k tt) (fun r e2 => Q r (ev :: e2)) -> sat (bind (emit ev) k) Q.
Proof.
  intros H. eapply sat_bind with (R := fun r e1 => r = Val tt /\ e1 = [ev]).
  - by apply sat_emit.
  - by intros [] e1 [_ ->].
  - by intros c e1 [? _].
  - by intros e e1 [? _].
Qed.

Lemma quiet_get_state : quiet get_state.
Proof. intros st. by exists st. Qed.

Lemma quiet_set_file (content : string) : quiet (set_file content).
Proof. intros st. by exists tt. Qed.

Lemma quiet_set_cookies_of (kvs : list (string * string)) :
  quiet (set_cookies_of kvs).
Proof. intros st. by exists tt. Qed.

Lemma quiet_update_headers (kvs : list (string * option string)) :
  quiet (update_headers kvs).
Proof. intros st. by exists tt. Qed.

Lemma quiet_ret {A} (a : A) : quiet (ret a).
Proof. intros st. by exists a. Qed.

Lemma writes_app (e1 e2 : list event) : writes (e1 ++ e2) = writes e1 + writes e2.
Proof. unfold writes. by rewrite List.filter_app, length_app. Qed.

Lemma writes_skip (ev : event) (l : list event) :
  is_write ev = false -> writes (ev :: l) = writes l.
Proof. intros H. unfold writes. simpl. by rewrite H. Qed.

(** One step of a proof in the logic. *)
Ltac sat_step :=
  lazymatch goal with
  | |- sat (bind (emit _) _) _ => apply sat_bind_emit
  | |- sat (bind (log _ _) _) _ => apply sat_bind_emit
  | |- sat (bind get_state _) _ =>
      apply sat_bind_quiet; [apply quiet_get_state | intros ?]
  | |- sat (bind (set_file _) _) _ =>
      apply sat_bind_quiet; [apply quiet_set_file | intros ?]
  | |- sat (bind (set_cookies_of _) _) _ =>
      apply sat_bind_quiet; [apply quiet_set_cookies_of | intros ?]
  | |- sat (bind (update_headers _) _) _ =>
      apply sat_bind_quiet; [apply quiet_update_headers | intros ?]
  | |- sat (bind (ret _) _) _ =>
      apply sat_bind_quiet; [apply quiet_ret | intros ?]
  | |- sat (emit _) _ => apply sat_emit
  | |- sat (log _ _) _ => apply sat_emit
  | |- sat (ret _) _ => apply sat_ret
  | |- sat (sys_exit _) _ => apply sat_exit
  | |- sat (raise _) _ => apply sat_raise
  end.

Lemma wire_app (e1 e2 : list event) : wire (e1 ++ e2) = wire e1 ++ wire e2.
Proof. unfold wire. apply List.filter_app. Qed.

Lemma wire_skip (ev : event) (l : list event) :
  (is_get ev || is_print ev) = false -> wire (ev :: l) = wire l.
Proof. intros H. unfold wire. simpl. by rewrite H. Qed.

Lemma wire_keep (ev : event) (l : list event) :
  (is_get ev || is_print ev) = true -> wire (ev :: l) = ev :: wire l.
Proof. intros H. unfold wire. simpl. by rewrite H. Qed.

(** Counting the writes of a trace built from counted pieces. *)
Ltac count :=
  repeat first
    [ rewrite writes_app
    | rewrite writes_skip by reflexivity ];
  repeat match goal with
    | H : writes _ = _ |- _ => rewrite H
    end;
  try reflexivity.

(** The wire of a trace built from pieces of known wire. *)
Ltac on_wire :=
  repeat first
    [ rewrite wire_app
    | rewrite wire_skip by reflexivity
    | rewrite wire_keep by reflexivity ];
  repeat match goal with
    | H : wire _ = _ |- _ => rewrite H
    end;
  try reflexivity.

(** [write_cookie] counts as one write, sends nothing, and either returns
    or raises [TypeError]. *)
Lemma write_cookie_sat :
  sat write_cookie
    (fun r evs =>
       writes evs = 1 /\ wire evs = [] /\ (r = Val tt \/ r = Exc TypeError)).
Proof.
  unfold write_cookie. do 2 sat_step.
  destruct (write_error a); [sat_step; auto |].
  sat_step. destruct (cookies a !! "fc2ppvdb_session").
  - do 2 sat_step. auto.
  - sat_step. auto.
Qed.

(** [read_cookie] writes and sends nothing and never exits. *)
Lemma read_cookie_sat :
  sat read_cookie
    (fun r evs => writes evs = 0 /\ wire evs = [] /\ forall c, r <> Exit c).
Proof.
  unfold read_cookie. do 2 sat_step.
  destruct (open_read a) as [| |cookie]; [sat_step; auto | sat_step; auto |].
  destruct (String.eqb cookie ""); [sat_step; auto |].
  do 3 sat_step. auto.
Qed.

(** The one exception of [read_cookie]: the file is not UTF-8. *)
Lemma read_cookie_exc (st : State) (e : exn) :
  (read_cookie st).1 = Exc e ->
  e = UnicodeDecodeError /\ open_read st = ReadUndecodable.
Proof.
  unfold read_cookie. run. unfold open_read. run.
  destruct (readable st), (cookie_file st) as [raw|]; run; try discriminate.
  - destruct (String.eqb _ _); run; discriminate.
  - by intros [= <-].
Qed.

Lemma read_cookie_at (st : State) :
  sat_at st read_cookie
    (fun r evs =>
       writes evs = 0 /\ wire evs = [] /\
       match r with
       | Val _ => True
       | Exit _ => False
       | Exc e => e = UnicodeDecodeError /\ open_read st = ReadUndecodable
       end).
Proof.
  destruct (read_cookie_sat st) as (evs & Ht & Hw & Hn & Hr).
  exists evs. split; [exact Ht |]. split; [exact Hw |]. split; [exact Hn |].
  pose proof (read_cookie_exc st) as He.
  destruct (read_cookie st).1 as [ok|c|e]; [done | by destruct (Hr c) | auto].
Qed.

(** A request goes out once, under the headers and cookies of the
    session, and the answer is the site's. *)
Lemma scraper_get_sat (env : Env) (u : string) :
  sat (scraper_get env u)
    (fun r evs =>
       writes evs = 0 /\ wire evs = [EvGet u] /\
       exists hdrs cks, r = Val (http_get env u hdrs cks)).
Proof. unfold scraper_get. do 3 sat_step. eauto 6. Qed.

Lemma request_article_sat (env : Env) (video_id : string) :
  sat (request_article env video_id)
    (fun r evs =>
       writes evs = 0 /\ wire evs = [EvGet (article_url video_id)] /\
       exists o,
         r = Val o /\
         forall page, o = Some page ->
                      fetched env (article_url video_id) (text page)).
Proof.
  unfold request_article. cbv zeta. fold (article_url video_id).
  eapply sat_bind; [apply scraper_get_sat | | |].
  - intros x e1 (H1 & N1 & hdrs & cks & [= ->]).
    destruct (http_get env _ hdrs cks) as [req_error | body kvs] eqn:Hget.
    + do 2 sat_step. split; [count |]. split; [on_wire |].
      eexists. split; [reflexivity | done].
    + do 2 sat_step. split; [count |]. split; [on_wire |].
      eexists. split; [reflexivity |]. intros page [= <-]. simpl.
      by exists hdrs, cks, kvs.
  - intros c e1 (_ & _ & hdrs & cks & [=]).
  - intros e e1 (_ & _ & hdrs & cks & [=]).
Qed.

Lemma request_article_info_sat (env : Env) (video_id csrf : string) :
  sat (request_article_info env video_id csrf)
    (fun r evs =>
       writes evs = 0 /\ wire evs = [EvGet (api_url video_id)] /\
       exists o,
         r = Val o /\
         forall resp, o = Some resp ->
                      fetched env (api_url video_id) (text resp)).
Proof.
  unfold request_article_info. do 2 sat_step. cbv zeta.
  fold (api_url video_id).
  eapply sat_bind; [apply scraper_get_sat | | |].
  - intros x e1 (H1 & N1 & hdrs & cks & [= ->]).
    destruct (http_get env _ hdrs cks) as [req_error | body kvs] eqn:Hget.
    + do 2 sat_step. split; [count |]. split; [on_wire |].
      eexists. split; [reflexivity | done].
    + do 2 sat_step. split; [count |]. split; [on_wire |].
      eexists. split; [reflexivity |]. intros resp [= <-]. simpl.
      by exists hdrs, cks, kvs.
  - intros c e1 (_ & _ & hdrs & cks & [=]).
  - intros e e1 (_ & _ & hdrs & cks & [=]).
Qed.

(** [get_csrf] answers the first token lxml finds in the page, [None]
    when it finds none, and lets an exception of lxml through. *)
Lemma get_csrf_sat (env : Env) (article_response : response) :
  sat (get_csrf env article_response)
    (fun r evs =>
       writes evs = 0 /\ wire evs = [] /\
       match r with
       | Val (Some csrf) =>
           exists rest,
             csrf_meta env (text article_response) = PageTokens (csrf :: rest)
       | Val None => csrf_meta env (text article_response) = PageTokens []
       | Exit _ => False
       | Exc e => csrf_meta env (text article_response) = PageError e
       end).
Proof.
  unfold get_csrf.
  destruct (csrf_meta env (text article_response)) as [e | [| csrf rest]].
  - sat_step. auto.
  - do 2 sat_step. auto.
  - sat_step. eauto.
Qed.

(** ** The pure functions never leave through [sys.exit] *)

Lemma no_exit_val {A} (a : A) : no_exit (Val a).
Proof. by intros c. Qed.

Lemma no_exit_exc {A} (e : exn) : no_exit (@Exc A e).
Proof. by intros c. Qed.

Lemma no_exit_bind {A B} (r : res A) (k : A -> res B) :
  no_exit r -> (forall a, no_exit (k a)) -> no_exit (res_bind r k).
Proof.
  intros Hr Hk. destruct r as [a|c|e]; simpl.
  - apply Hk.
  - by destruct (Hr c).
  - by intros c.
Qed.

Lemma no_exit_subscript (v : json) (k : string) : no_exit (subscript v k).
Proof.
  destruct v as [| | | | |d]; try (by intros c).
  simpl. destruct (assoc k d); by intros c.
Qed.

Lemma no_exit_py_iter (v : json) : no_exit (py_iter v).
Proof. by destruct v; intros c. Qed.

Lemma no_exit_py_get (v : json) (k : string) : no_exit (py_get v k).
Proof. by destruct v; intros c. Qed.

Lemma no_exit_py_get_list (v : json) (k : string) : no_exit (py_get_list v k).
Proof. by destruct v; intros c. Qed.

Lemma no_exit_py_search (pat : list tok) (v : json) : no_exit (py_search pat v).
Proof. by destruct v; intros c. Qed.

Lemma no_exit_py_startswith (v : json) (p : string) :
  no_exit (py_startswith v p).
Proof. by destruct v; intros c. Qed.

Lemma no_exit_map_res {A B} (f : A -> res B) (l : list A) :
  (forall x, no_exit (f x)) -> no_exit (map_res f l).
Proof.
  intros Hf. induction l as [|x l IH]; simpl; [apply no_exit_val |].
  apply no_exit_bind; [apply Hf | intros y].
  apply no_exit_bind; [apply IH | intros ys]. apply no_exit_val.
Qed.

Create HintDb no_exit.
#[local] Hint Resolve no_exit_val no_exit_exc no_exit_subscript no_exit_py_iter
  no_exit_py_get no_exit_py_get_list no_exit_py_search no_exit_py_startswith
  : no_exit.

Ltac no_exit_tac :=
  repeat first
    [ progress auto with no_exit
    | apply no_exit_bind; [| intros ?]
    | apply no_exit_map_res; intros ?
    | match goal with
      | |- no_exit (match ?x with _ => _ end) => destruct x
      | |- no_exit (if ?x then _ else _) => destruct x
      end ].



Lemma no_exit_export_scene (env : Env) (result : json) :
  no_exit (export_scene env result).
Proof. unfold export_scene, normalize_image. no_exit_tac. Qed.

(** ** The request pipeline *)

(** The three lines that end every handled failure. *)
Lemma fail_sat {A} (msg : string) :
  sat (bind (log Error msg) (fun _ =>
       bind write_cookie (fun _ => @sys_exit A 1)))
    (fun r evs =>
       writes evs = 1 /\ wire evs = [] /\ (r = Exit 1%Z \/ r = Exc TypeError)).
Proof.
  sat_step.
  eapply sat_bind; [apply write_cookie_sat | | |].
  - intros [] e1 (H1 & N1 & _). sat_step.
    split; [count |]. split; [on_wire |]. auto.
  - intros c e1 (_ & _ & [[=] | [=]]).
  - intros e e1 (H1 & N1 & [[=] | [= ->]]).
    split; [count |]. split; [on_wire |]. auto.
Qed.

(** A handled failure inside [send_request]. *)
Ltac handled :=
  eapply sat_weaken; [apply fail_sat |];
  let r := fresh "r" in
  let evs := fresh "evs" in
  let Hw := fresh "Hw" in
  let Hn := fresh "Hn" in
  intros r evs (Hw & Hn & [-> | ->]);
  (split; [first [split; [done | count] | left; split; [done | count]]
          | on_wire; simpl; auto]).

Lemma send_request_sat (env : Env) (video_id : string) (st : State) :
  sat_at st (send_request env video_id) (send_request_post env video_id st).
Proof.
  unfold send_request, send_request_post.
  eapply sat_at_bind; [apply read_cookie_at | | |].
  2: { intros c e1 (_ & _ & []). }
  2: { intros e e1 (H1 & N1 & -> & Hread).
       split; [right; split; [exact H1 | by left] | by left]. }
  intros ok e1 (H1 & N1 & _).
  destruct ok; cbn [negb].
  2: { eapply sat_bind; [apply fail_sat | | |].
       - intros [] e2 (_ & _ & [[=] | [=]]).
       - intros c e2 (H2 & N2 & [[= ->] | [=]]).
         split; [split; [done | count] | left; on_wire].
       - intros e e2 (H2 & N2 & [[=] | [= ->]]).
         split; [left; split; [done | count] | left; on_wire]. }
  do 2 sat_step.
  eapply sat_bind; [apply request_article_sat | | |].
  2: { intros c e2 (_ & _ & o & [=] & _). }
  2: { intros e e2 (_ & _ & o & [=] & _). }
  intros page_response e2 (H2 & N2 & o & [= <-] & Hpage).
  destruct page_response as [page_response|]; [| handled].
  specialize (Hpage page_response eq_refl).
  eapply sat_bind; [apply get_csrf_sat | | |].
  2: { intros c e3 (_ & _ & []). }
  2: { intros e e3 (H3 & N3 & Hlxml).
       split; [right; split; [count | right; left; eauto]
              | right; left; on_wire]. }
  intros [csrf|] e3 (H3 & N3 & Hcsrf); [| handled].
  assert (token_found env video_id) as Htoken.
  { destruct Hcsrf as [rest Hcsrf]. by exists (text page_response), csrf, rest. }
  eapply sat_bind; [apply request_article_info_sat | | |].
  2: { intros c e4 (_ & _ & o & [=] & _). }
  2: { intros e e4 (_ & _ & o & [=] & _). }
  intros article_response e4 (H4 & N4 & o & [= <-] & Hinfo).
  destruct article_response as [article_response|]; [| handled].
  specialize (Hinfo article_response eq_refl).
  sat_step.
  destruct (json_loads env (text article_response)) as [json_error|result]
    eqn:Hjson; [handled |].
  assert (answered env video_id result) as Hanswer.
  { by exists (text article_response). }
  sat_step.
  destruct (export_scene env result) as [scene|c|e] eqn:Hexport.
  - sat_step.
    eapply sat_bind; [apply write_cookie_sat | | |].
    + intros [] e5 (H5 & N5 & _). sat_step.
      split; [| right; right; split; [on_wire | done]].
      split; [count |]. split; [on_wire | eauto].
    + intros c e5 (_ & _ & [[=] | [=]]).
    + intros e e5 (H5 & N5 & [[=] | [= ->]]).
      split; [left; split; [done | count]
             | right; right; split; [on_wire | done]].
  - by destruct (no_exit_export_scene env result c).
  - destruct e as [key| | | |cls]; [handled | | | |];
      (sat_step;
       split; [right; split; [count | right; right; split; [done | eauto]]
              | right; right; split; [on_wire | done]]).
Qed.



(** A page lxml cannot parse: [etree.HTML] answers [None] for an empty
    body, [None.xpath] raises [AttributeError], and the run ends in that
    exception after the page request and without a write. *)
Example send_request_empty_page :
  let env :=
    {| http_get := fun _ _ _ => Response "" [];
       csrf_meta := fun body =>
         if String.eqb body "" then PageError AttributeError
         else PageTokens [];
       json_loads := fun _ => Decoded JNull;
       json_dumps := fun _ => "";
       py_repr := fun _ => "" |} in
  let run := send_request env "12345" (start (Some "session") true None) in
  run.1 = Exc AttributeError /\
  writes (trace run.2) = 0 /\
  wire (trace run.2) = [EvGet (article_url "12345")].
Proof. vm_compute. done. Qed.

(** A cookie file that is not UTF-8: the run ends in
    [UnicodeDecodeError] before any request and without a write. *)
Example send_request_undecodable_cookie :
  let run :=
    send_request (sample_env JNull) "12345"
      (mkState (Some "session") NotUtf8 None ∅ ∅ []) in
  run.1 = Exc UnicodeDecodeError /\
  writes (trace run.2) = 0 /\
  wire (trace run.2) = [].
Proof. vm_compute. done. Qed.

(** ** The response mapper *)

Lemma res_bind_val {A B} (r : res A) (k : A -> res B) (b : B) :
  res_bind r k = Val b -> exists a, r = Val a /\ k a = Val b.
Proof. destruct r as [a|c|e]; simpl; [eauto | done | done]. Qed.

Lemma export_scene_inv (env : Env) (result : json) (sc : ScrapedScene) :
  export_scene env result = Val sc ->
  exists article image_url video_id,
    subscript result "article" = Val article /\
    subscript article "image_url" = Val image_url /\
    normalize_image env image_url = Val (image sc) /\
    subscript article "video_id" = Val video_id /\
    code sc = "FC2-PPV-" +:+ format_value env video_id.
Proof.
  unfold export_scene. intros H.
  repeat (apply res_bind_val in H as (? & ? & H)).
  injection H as <-. simpl. eauto 10.
Qed.

Lemma prefix_append (a b s : string) :
  String.prefix (a +:+ b) s = true -> String.prefix a s = true.
Proof.
  revert s. induction a as [|c a IH]; intros s; sapp; simpl.
  - by destruct s.
  - destruct s as [|c' s]; [done |]. simpl.
    destruct (ascii_dec c c'); [apply IH | done].
Qed.

(** C7. In a mapped scene the image is the [image_url] of the article
    with the base URL in front when [image_url] does not start with
    [https], and [image_url] itself when it starts with [https://]. *)
Theorem export_scene_image (env : Env) (result article : json) (u : string)
    (sc : ScrapedScene) :
  subscript result "article" = Val article ->
  subscript article "image_url" = Val (JStr u) ->
  export_scene env result = Val sc ->
  (String.prefix "https" u = false -> image sc = BASE_QUERY_URL +:+ u) /\
  (String.prefix "https://" u = true -> image sc = u).
Proof.
  intros Ha Hu H.
  apply export_scene_inv in H as (a' & i' & v' & Ha' & Hi' & Hn & _).
  rewrite Ha in Ha'. injection Ha' as <-.
  rewrite Hu in Hi'. injection Hi' as <-.
  unfold normalize_image in Hn. simpl in Hn.
  split.
  - intros Hp. rewrite Hp in Hn. simpl in Hn. congruence.
  - intros Hp. apply (prefix_append "https" "://") in Hp.
    rewrite Hp in Hn. simpl in Hn. congruence.
Qed.

Lemma export_scene_image_witness :
  (exists sc,
     export_scene (sample_env JNull) (sample_article "/img/abc.jpg" "12345")
     = Val sc /\
     image sc = "https://fc2ppvdb.com/img/abc.jpg") /\
  (exists sc,
     export_scene (sample_env JNull)
       (sample_article "https://cdn.example/abc.jpg" "12345")
     = Val sc /\
     image sc = "https://cdn.example/abc.jpg").
Proof.
  split.
  - eexists. split; [reflexivity |].
    refine (proj1 (export_scene_image (sample_env JNull)
                     (sample_article "/img/abc.jpg" "12345") _
                     "/img/abc.jpg" _ eq_refl eq_refl eq_refl) eq_refl).
  - eexists. split; [reflexivity |].
    refine (proj2 (export_scene_image (sample_env JNull)
                     (sample_article "https://cdn.example/abc.jpg" "12345") _
                     "https://cdn.example/abc.jpg" _ eq_refl eq_refl eq_refl)
                  eq_refl).
Defined.

(** The decimal numeral an f-string renders an integer as reads back as
    that integer. *)
Lemma format_value_int (env : Env) (n : Z) :
  Z.of_int <$> NilZero.int_of_string (format_value env (JInt n)) = Some n.
Proof.
  cbn [format_value]. rewrite NilZero.isi.
  - cbn [fmap option_fmap option_map]. by rewrite DecimalZ.of_to.
  - destruct n as [|p|p]; [done | | done].
    intros [= H]. by apply (DecimalPos.Unsigned.to_uint_nonnil p).
  - destruct n as [|p|p]; [done | done |].
    intros [= H]. by apply (DecimalPos.Unsigned.to_uint_nonnil p).
Qed.

(** C8. The code of a mapped scene is [FC2-PPV-] followed by the
    [video_id] of the article in the API's answer, as an f-string renders
    it: a number as its decimal numeral, a string as it is. The identifier
    the caller asked for is not an input of the mapper. *)
Theorem export_scene_code (env : Env) (result article v : json)
    (sc : ScrapedScene) :
  subscript result "article" = Val article ->
  subscript article "video_id" = Val v ->
  export_scene env result = Val sc ->
  code sc = "FC2-PPV-" +:+ format_value env v /\
  (forall n, v = JInt n ->
             code sc = "FC2-PPV-" +:+ NilZero.string_of_int (Z.to_int n)) /\
  (forall s, v = JStr s -> code sc = "FC2-PPV-" +:+ s).
Proof.
  intros Ha Hv H.
  apply export_scene_inv in H as (a' & i' & v' & Ha' & _ & _ & Hv' & Hc).
  rewrite Ha in Ha'. injection Ha' as <-.
  rewrite Hv in Hv'. injection Hv' as <-.
  split; [exact Hc |]. split; [by intros n -> | by intros s ->].
Qed.

Lemma export_scene_code_witness :
  (exists sc,
     export_scene (sample_env JNull)
       (JObj [("article",
               JObj (("video_id", JInt 4512345)
                     :: sample_article_dict "/img/abc.jpg" "12345"))])
     = Val sc /\
     code sc = "FC2-PPV-4512345") /\
  (exists sc,
     export_scene (sample_env JNull) (sample_article "/img/abc.jpg" "12345")
     = Val sc /\
     code sc = "FC2-PPV-12345").
Proof.
  split.
  - eexists. split; [reflexivity |].
    refine (proj1 (proj2 (export_scene_code (sample_env JNull)
                            (JObj [("article",
                                    JObj (("video_id", JInt 4512345)
                                          :: sample_article_dict
                                               "/img/abc.jpg" "12345"))])
                            _ _ _ eq_refl eq_refl eq_refl))
                  4512345%Z eq_refl).
  - eexists. split; [reflexivity |].
    refine (proj2 (proj2 (export_scene_code (sample_env JNull)
                            (sample_article "/img/abc.jpg" "12345") _ _ _
                            eq_refl eq_refl eq_refl)) "12345" eq_refl).
Defined.

(** The scene that [send_request] returns is the mapper's, on a decoded
    answer, whatever identifier was asked for. *)
Lemma send_request_scene (env : Env) (video_id : string) (st : State)
    (sc : ScrapedScene) :
  (send_request env video_id st).1 = Val sc ->
  exists result,
    answered env video_id result /\ export_scene env result = Val sc.
Proof.
  intros H.
  destruct (send_request_sat env video_id st) as (evs & _ & Hpost & _).
  rewrite H in Hpost. by destruct Hpost as (_ & _ & ?).
Qed.

(** ** A key missing in the article *)

Lemma assoc_remove_key_eq (k : string) (d : list (string * json)) :
  assoc k (remove_key k d) = None.
Proof.
  induction d as [|[k' v] d IH]; [done |]. simpl.
  destruct (String.eqb k' k) eqn:E; simpl; [done |].
  rewrite String.eqb_sym, E. exact IH.
Qed.

Lemma assoc_remove_key_ne (k k' : string) (d : list (string * json)) :
  k <> k' -> assoc k' (remove_key k d) = assoc k' d.
Proof.
  intros Hne. induction d as [|[k0 v] d IH]; [done |]. simpl.
  destruct (String.eqb k0 k) eqn:E; simpl.
  - apply String.eqb_eq in E as ->.
    destruct (String.eqb k' k) eqn:E'; [| exact IH].
    apply String.eqb_eq in E'. congruence.
  - by rewrite IH.
Qed.

Lemma subscript_some (d : list (string * json)) (k : string) (v : json) :
  assoc k d = Some v -> subscript (JObj d) k = Val v.
Proof. intros H. simpl. by rewrite H. Qed.

Lemma subscript_none (d : list (string * json)) (k : string) :
  assoc k d = None -> subscript (JObj d) k = Exc (KeyError k).
Proof. intros H. simpl. by rewrite H. Qed.

Lemma map_res_tags (l : list json) :
  Forall has_name l ->
  exists ts,
    map_res (fun article_tag =>
      res_bind (subscript article_tag "name") (fun name =>
        Val {| tag_name := name |})) l = Val ts.
Proof.
  induction 1 as [|x l (d & -> & n & Hn) Hl [ts IH]]; [by eexists |].
  cbn [map_res]. rewrite (subscript_some _ _ _ Hn). cbn [res_bind].
  rewrite IH. by eexists.
Qed.

Lemma map_res_performers (env : Env) (l : list json) :
  Forall has_name_id l ->
  exists ps,
    map_res (fun article_performer =>
      res_bind (subscript article_performer "name") (fun name =>
      res_bind (subscript article_performer "id") (fun id =>
        Val {| performer_name := name;
               performer_urls :=
                 [BASE_QUERY_URL +:+ "/actresses/" +:+ format_value env id]
            |}))) l = Val ps.
Proof.
  induction 1 as [|x l (d & -> & [n Hn] & [i Hi]) Hl [ps IH]]; [by eexists |].
  cbn [map_res].
  rewrite (subscript_some _ _ _ Hn), (subscript_some _ _ _ Hi).
  cbn [res_bind]. rewrite IH. by eexists.
Qed.

(** One lookup in an article that lost the key [k]. *)
Ltac lookup_step :=
  lazymatch goal with
  | |- context [subscript (JObj (remove_key ?k ?d)) ?k'] =>
      first
        [ rewrite (subscript_none (remove_key k d) k')
            by apply assoc_remove_key_eq
        | erewrite (subscript_some (remove_key k d) k')
            by (rewrite assoc_remove_key_ne by discriminate; eassumption) ]
  end; cbn [res_bind].

(** The mapper on an article of the documented shape that lost one of its
    expected keys raises [KeyError] for that key. *)
Lemma export_scene_missing (env : Env) (r d : list (string * json))
    (k : string) :
  assoc "article" r = Some (JObj (remove_key k d)) ->
  article_shape d ->
  k ∈ expected_keys ->
  export_scene env (JObj r) = Exc (KeyError k).
Proof.
  intros Hart Hshape Hk.
  destruct Hshape as ((tl & Htags & Htl) & (al & Hact & Hal) & (img & Himg)
    & [ti Hti] & [rd Hrd] & (w & Hw & [wn Hwn] & [ws Hws]) & [vi Hvi]).
  destruct (map_res_tags tl Htl) as [ts Hts].
  destruct (map_res_performers env al Hal) as [ps Hps].
  unfold export_scene. rewrite (subscript_some _ _ _ Hart). cbn [res_bind].
  unfold expected_keys in Hk.
  repeat (apply elem_of_cons in Hk as [-> | Hk]);
    [ .. | by apply elem_of_nil in Hk ];
    repeat first
      [ reflexivity
      | lookup_step
      | progress cbn [py_iter res_bind]
      | rewrite Hts
      | rewrite Hps
      | rewrite (subscript_some _ _ _ Hwn)
      | rewrite (subscript_some _ _ _ Hws)
      | progress (unfold normalize_image, py_startswith; cbn [res_bind]);
        destruct (negb (String.prefix "https" img)); cbn [res_bind] ].
Qed.

Lemma bind_val {A B} (m : M A) (k : A -> M B) (st st' : State) (a : A) :
  m st = (Val a, st') -> bind m k st = k a st'.
Proof. intros H. unfold bind. by rewrite H. Qed.

(** The events of one [write_cookie]: its entry, then at most one log
    line. *)
Lemma write_cookie_trace (st : State) :
  exists w,
    trace (write_cookie st).2 = trace st ++ EvWriteCookie :: w /\
    forallb is_log w = true /\
    ((write_cookie st).1 = Val tt \/ (write_cookie st).1 = Exc TypeError).
Proof.
  unfold write_cookie. run.
  destruct (write_error st) as [err|]; run.
  - eexists. rewrite <- app_assoc. split; [reflexivity |]. auto.
  - destruct (cookies st !! "fc2ppvdb_session") as [c|]; run.
    + eexists. rewrite <- app_assoc. split; [reflexivity |]. auto.
    + exists []. auto.
Qed.

(** The three lines that end every handled failure, as a run. *)
Lemma fail_run {A} (msg : string) (st : State) :
  let r := bind (log Error msg) (fun _ =>
           bind write_cookie (fun _ => @sys_exit A 1)) st in
  exists w,
    trace r.2 = trace st ++ EvLog Error msg :: EvWriteCookie :: w /\
    forallb is_log w = true /\
    exit_status r.1 = 1%Z /\
    is_val r.1 = false.
Proof.
  cbv zeta. unfold log.
  rewrite (bind_val (emit (EvLog Error msg)) _ st _ tt eq_refl).
  set (st1 := mkState _ _ _ _ _ _).
  destruct (write_cookie_trace st1) as (w & Ht & Hw & Hr).
  unfold bind. destruct (write_cookie st1) as [[[]|c|e] st2]; simpl in *.
  - exists w. rewrite Ht, <- app_assoc. done.
  - by destruct Hr.
  - exists w. rewrite Ht, <- app_assoc. done.
Qed.

(** C9. Suppose the cookie is read, the page fetched, the token scraped
    and the API answers a body that decodes to an object whose article
    has the documented shape but for one expected key [k]. Then the
    mapper raises [KeyError] for [k]; [send_request] logs the error line
    that names [k] (none of the lines of a network or decoding failure),
    enters [write_cookie], and ends the process with status 1 without
    returning a scene. *)
Theorem missing_key_is_fatal (env : Env) (video_id : string)
    (st st1 st2 st3 st4 st5 : State) (page resp : response) (csrf : string)
    (r d : list (string * json)) (k : string) :
  read_cookie st = (Val true, st1) ->
  update_headers [("User-Agent", Some USER_AGENT)] st1 = (Val tt, st2) ->
  request_article env video_id st2 = (Val (Some page), st3) ->
  get_csrf env page st3 = (Val (Some csrf), st4) ->
  request_article_info env video_id csrf st4 = (Val (Some resp), st5) ->
  json_loads env (text resp) = Decoded (JObj r) ->
  assoc "article" r = Some (JObj (remove_key k d)) ->
  article_shape d ->
  k ∈ expected_keys ->
  let message :=
    "Failed to export article info, reason: '" +:+ k +:+ "' cannot be found" in
  export_scene env (JObj r) = Exc (KeyError k) /\
  (exists w,
     trace (send_request env video_id st).2
     = trace st5
       ++ [EvLog Debug ("Response: " +:+ text resp);
           EvLog Debug ("Receive object: " +:+ format_value env (JObj r));
           EvLog Error message;
           EvWriteCookie] ++ w /\
     forallb is_log w = true) /\
  exit_status (send_request env video_id st).1 = 1%Z /\
  is_val (send_request env video_id st).1 = false /\
  message <> "Failed to request article page" /\
  message <> "Failed to get CSRF token" /\
  message <> "Failed to request article info" /\
  (forall json_error,
     message <> "Failed to decode article info, reason: " +:+ json_error).
Proof.
  intros Hread Hhdr Hpage Hcsrf Hinfo Hjson Hart Hshape Hk message.
  pose proof (export_scene_missing env r d k Hart Hshape Hk) as Hexport.
  split; [exact Hexport |].
  assert (exists st6 : State,
    trace st6 = trace st5
                ++ [EvLog Debug ("Response: " +:+ text resp);
                    EvLog Debug ("Receive object: " +:+ format_value env (JObj r))]
    /\ send_request env video_id st
       = bind (log Error message) (fun _ =>
         bind write_cookie (fun _ => sys_exit 1)) st6) as (st6 & Ht6 & ->).
  { eexists. split; [| unfold send_request].
    2: { rewrite (bind_val _ _ _ _ _ Hread). cbn [negb].
         rewrite (bind_val (ret tt) _ st1 _ tt eq_refl).
         rewrite (bind_val _ _ _ _ _ Hhdr).
         rewrite (bind_val _ _ _ _ _ Hpage). cbv beta iota.
         rewrite (bind_val _ _ _ _ _ Hcsrf). cbv beta iota.
         rewrite (bind_val _ _ _ _ _ Hinfo). cbv beta iota.
         unfold log at 1.
         rewrite (bind_val (emit _) _ st5 _ tt eq_refl).
         rewrite Hjson. unfold log at 1.
         erewrite (bind_val (emit _) _ _ _ tt eq_refl).
         rewrite Hexport. unfold repr_key, message.
         rewrite !append_assoc. reflexivity. }
    simpl. by rewrite <- app_assoc. }
  destruct (fail_run (A := ScrapedScene) message st6) as (w & Ht & Hw & Hs & Hv).
  cbv zeta in Ht, Hs, Hv.
  split; [| split; [exact Hs | split; [exact Hv |]]].
  - exists w. split; [| exact Hw]. rewrite Ht, Ht6, <- app_assoc. reflexivity.
  - unfold message. repeat split; try intros json_error; sapp; discriminate.
Qed.

Lemma sample_article_shape (image_url video_id : string) :
  article_shape (sample_article_dict image_url video_id).
Proof.
  unfold article_shape, sample_article_dict. simpl.
  repeat split; eauto;
    eexists; (split; [reflexivity |]);
    repeat constructor; eexists; (split; [reflexivity |]); simpl; eauto.
Qed.

Lemma missing_key_is_fatal_witness :
  let answer :=
    JObj [("article",
           JObj (remove_key "writer" (sample_article_dict "/img/abc.jpg" "12345")))] in
  let run :=
    send_request (sample_env answer) "12345" (start (Some "session") true None) in
  export_scene (sample_env answer) answer = Exc (KeyError "writer") /\
  exit_status run.1 = 1%Z /\
  is_val run.1 = false.
Proof.
  intros answer run.
  pose (env := sample_env answer).
  pose (st0 := start (Some "session") true None).
  pose (st1 := (read_cookie st0).2).
  pose (st2 := (update_headers [("User-Agent", Some USER_AGENT)] st1).2).
  pose (st3 := (request_article env "12345" st2).2).
  pose (page := {| text := "{}" |}).
  pose (st4 := (get_csrf env page st3).2).
  pose (st5 := (request_article_info env "12345" "token" st4).2).
  destruct (missing_key_is_fatal env "12345" st0 st1 st2 st3 st4 st5
              page page "token"
              [("article",
                JObj (remove_key "writer"
                        (sample_article_dict "/img/abc.jpg" "12345")))]
              (sample_article_dict "/img/abc.jpg" "12345") "writer")
    as (He & _ & Hs & Hv & _);
    [ vm_compute; reflexivity | vm_compute; reflexivity
    | vm_compute; reflexivity | vm_compute; reflexivity
    | vm_compute; reflexivity | reflexivity | reflexivity
    | apply sample_article_shape
    | compute_done | ].
  auto.
Defined.

(** ** No session cookie *)

Lemma read_cookie_false (st : State) :
  open_read st = ReadError \/ open_read st = ReadText "" ->
  read_cookie st
  = (Val false,
     mkState (cookie_file st) (readable st) (write_error st) (cookies st)
             (headers st) (trace st ++ [EvReadCookie])).
Proof.
  intros H. unfold read_cookie. run. unfold open_read in *. run.
  by destruct H as [-> | ->].
Qed.

(** C2, as the code has it. When the cookie file is absent, unreadable
    (opening it raises [OSError]) or empty at the start of a run,
    [read_cookie] answers [False] and the process ends with status 1
    before any request is sent. If the file can be opened for writing it
    exists and is empty at exit; if not, it is left as it was. *)
Theorem no_cookie_is_fatal (env : Env) (video_id : string) (st : State) :
  open_read st = ReadError \/ open_read st = ReadText "" ->
  cookies st !! "fc2ppvdb_session" = None ->
  (read_cookie st).1 = Val false /\
  exit_status (send_request env video_id st).1 = 1%Z /\
  (exists evs,
     trace (send_request env video_id st).2 = trace st ++ evs /\
     forallb (fun ev => negb (is_get ev)) evs = true) /\
  cookie_file (send_request env video_id st).2
  = match write_error st with
    | None => Some ""
    | Some _ => cookie_file st
    end.
Proof.
  intros Hfile Hjar. pose proof (read_cookie_false st Hfile) as Hread.
  split; [by rewrite Hread |].
  unfold send_request. rewrite (bind_val _ _ _ _ _ Hread). cbn [negb].
  unfold log. run.
  rewrite write_cookie_run. run. rewrite Hjar.
  destruct (write_error st) as [err|]; run.
  - split; [done |]. split; [| done].
    eexists. rewrite <- !app_assoc. split; [reflexivity | done].
  - split; [done |]. split; [| done].
    eexists. rewrite <- !app_assoc. split; [reflexivity | done].
Qed.

Lemma no_cookie_is_fatal_witness :
  let run := send_request (sample_env JNull) "12345" (start None true None) in
  exit_status run.1 = 1%Z /\ cookie_file run.2 = Some "".
Proof.
  destruct (no_cookie_is_fatal (sample_env JNull) "12345"
              (start None true None)) as (_ & Hs & _ & Hf);
    [left; reflexivity | reflexivity |].
  split; [exact Hs | exact Hf].
Defined.

(** C2, as the claim states it, fails: when the file is absent and cannot
    be created, there is no file at exit. *)
Lemma no_cookie_placeholder_counterexample :
  ~ (forall (env : Env) (video_id : string) (st : State),
       open_read st = ReadError ->
       cookies st !! "fc2ppvdb_session" = None ->
       cookie_file (send_request env video_id st).2 = Some "").
Proof.
  intros H.
  specialize (H (sample_env JNull) "12345"
                (start None true (Some "Permission denied")) eq_refl eq_refl).
  vm_compute in H. discriminate.
Qed.

(** ** The entry point *)

(** C6. When the operation is not one of the two the script knows, or
    [extract_id] finds no identifier in the fragment (it returns [None],
    or raises on a fragment of another shape), the process ends with
    status 1 and nothing of the session store or of the network was
    touched: the run only logged. *)
Theorem no_identifier_is_fatal (env : Env) (op : string) (args : json)
    (st : State) :
  recognized op = false \/
  extract_id args = Val None \/
  (exists e, extract_id args = Exc e) ->
  exit_status (main env op args st).1 = 1%Z /\
  untouched st (main env op args st).2.
Proof.
  intros H. unfold main, untouched.
  destruct (recognized op).
  - destruct H as [H | [H | [e H]]]; [done | |]; rewrite H; unfold log; run.
    + repeat split; try done. eexists. split; [reflexivity | done].
    + repeat split; try done. exists []. by rewrite app_nil_r.
  - unfold log. run.
    repeat split; try done. eexists. split; [reflexivity | done].
Qed.

Lemma no_identifier_is_fatal_witness :
  exit_status
    (main (sample_env JNull) "performer-by-name" (JObj [("name", JStr "x")])
          (start (Some "session") true None)).1 = 1%Z /\
  exit_status
    (main (sample_env JNull) "scene-by-fragment"
          (JObj [("title", JStr "1080p 2024")])
          (start (Some "session") true None)).1 = 1%Z.
Proof.
  split.
  - refine (proj1 (no_identifier_is_fatal _ _ _ _ _)). left. reflexivity.
  - refine (proj1 (no_identifier_is_fatal _ _ _ _ _)). right. left. reflexivity.
Defined.

(** * Further properties *)

(** ** What a match looks like *)

Lemma take_min_inv (p : ascii -> bool) (n : nat) (s s1 : string) :
  take_min p n s = Some s1 ->
  exists d, s = d +:+ s1 /\ String.length d = n /\ string_forall p d = true.
Proof.
  revert s. induction n as [|n IH]; intros s; simpl.
  - intros [= ->]. by exists "".
  - destruct s as [|a s]; [done |].
    destruct (p a) eqn:Ha; [| done].
    intros H. apply IH in H as (d & -> & Hlen & Hd).
    exists (String a d). sapp. simpl. by rewrite Ha, Hlen, Hd.
Qed.

Lemma drop_while_split (p : ascii -> bool) (s : string) :
  exists d,
    s = d +:+ drop_while p s /\
    string_forall p d = true /\
    match drop_while p s with String a _ => p a | EmptyString => false end
    = false.
Proof.
  induction s as [|a s (d & Hs & Hd & Hend)]; simpl.
  - by exists "".
  - destruct (p a) eqn:Ha.
    + exists (String a d). sapp. simpl. by rewrite <- Hs, Ha, Hd.
    + exists "". by rewrite Ha.
Qed.

(** In front of a part that cannot fail, a greedy repetition takes the
    whole run. *)
Lemma greedy_more_all {A} (p : ascii -> bool) (k : string -> option A)
    (s : string) :
  (forall t, is_Some (k t)) ->
  greedy_more p s k = k (drop_while p s).
Proof.
  intros Hk. induction s as [|a s IH]; simpl; [done |].
  destruct (p a); [| done]. rewrite IH.
  by destruct (Hk (drop_while p s)) as [r ->].
Qed.

Lemma greedy_more_split {A} (p : ascii -> bool) (k : string -> option A)
    (s : string) (r : A) :
  greedy_more p s k = Some r ->
  exists d s', s = d +:+ s' /\ string_forall p d = true /\ k s' = Some r.
Proof.
  induction s as [|a s IH]; simpl.
  - intros H. by exists "", "".
  - destruct (p a) eqn:Ha; [| intros H; by exists "", (String a s)].
    destruct (greedy_more p s k) eqn:E.
    + intros [= <-]. destruct (IH eq_refl) as (d & s' & -> & Hd & Hk).
      exists (String a d), s'. sapp. simpl. by rewrite Ha, Hd.
    + intros H. by exists "", (String a s).
Qed.

Lemma lazy_more_split {A} (p : ascii -> bool) (k : string -> option A)
    (s : string) (r : A) :
  lazy_more p s k = Some r ->
  exists d s', s = d +:+ s' /\ string_forall p d = true /\ k s' = Some r.
Proof.
  induction s as [|a s IH]; simpl.
  - destruct (k "") eqn:E; [| done]. intros [= <-]. by exists "", "".
  - destruct (k (String a s)) eqn:E.
    + intros [= <-]. by exists "", (String a s).
    + destruct (p a) eqn:Ha; [| done]. intros H.
      destruct (IH H) as (d & s' & -> & Hd & Hk).
      exists (String a d), s'. sapp. simpl. by rewrite Ha, Hd.
Qed.

Lemma strip_prefix_inv (l s s' : string) :
  strip_prefix l s = Some s' -> s = l +:+ s'.
Proof.
  revert s. induction l as [|a l IH]; intros s; simpl.
  - by intros [= ->].
  - destruct s as [|b s]; [done |].
    destruct (Ascii.eqb a b) eqn:E; [| done].
    apply Ascii.eqb_eq in E as ->. intros H. sapp. by rewrite (IH _ H).
Qed.

Lemma string_forall_append (p : ascii -> bool) (s t : string) :
  string_forall p (s +:+ t) = string_forall p s && string_forall p t.
Proof.
  induction s as [|a s IH]; sapp; simpl; [done |].
  by rewrite IH, andb_assoc.
Qed.

(** The group of digits, wherever it matches: a run of at least five
    digits that no digit follows. *)
Lemma pmatch_digits_inv (s : string) (m0 m : rmatch) :
  pmatch [TOpen; TRep CDigit 5 true; TClose; TRep CAny 0 true] s m0 = Some m ->
  exists ds rest,
    s = ds +:+ rest /\
    all_digits ds = true /\
    5 <= String.length ds /\
    starts_with_digit rest = false /\
    m = mkMatch s (Some ds).
Proof.
  rewrite pmatch_open, pmatch_rep. change (in_class CDigit) with is_digit.
  destruct (take_min is_digit 5 s) as [s1|] eqn:E; [| done].
  apply take_min_inv in E as (d1 & -> & Hlen & Hd1).
  rewrite greedy_more_all by (intros t; rewrite pmatch_close; eauto).
  rewrite pmatch_close. intros [= <-]. simpl.
  destruct (drop_while_split is_digit s1) as (d2 & Hs1 & Hd2 & Hend).
  exists (d1 +:+ d2), (drop_while is_digit s1).
  rewrite append_assoc, <- Hs1. repeat split.
  - unfold all_digits. by rewrite string_forall_append, Hd1, Hd2.
  - rewrite length_append. lia.
  - exact Hend.
  - f_equal. f_equal. rewrite Hs1 at 1.
    rewrite <- append_assoc. apply consumed_append.
Qed.

Lemma pmatch_digits_some (s : string) (m0 : rmatch) :
  is_Some (pmatch [TOpen; TRep CDigit 5 true; TClose; TRep CAny 0 true] s m0)
  <-> five_digits s = true.
Proof.
  unfold five_digits. rewrite pmatch_open, pmatch_rep.
  change (in_class CDigit) with is_digit.
  destruct (take_min is_digit 5 s) as [s1|].
  - rewrite greedy_more_all by (intros t; rewrite pmatch_close; eauto).
    rewrite pmatch_close. split; [intros _ | eauto].
    apply bool_decide_eq_true. eauto.
  - split; [by intros [? ?] |].
    intros H. apply bool_decide_eq_true in H. by destruct H.
Qed.

Lemma re_search_split (pat : list tok) (s : string) (m : rmatch) :
  re_search pat s = Some m ->
  exists skip s0, s = skip +:+ s0 /\ pmatch pat s0 (mkMatch s0 None) = Some m.
Proof.
  induction s as [|a s IH]; simpl.
  - destruct (pmatch pat "" _) eqn:E; [| done]. intros [= <-]. by exists "", "".
  - destruct (pmatch pat (String a s) _) eqn:E.
    + intros [= <-]. by exists "", (String a s).
    + intros H. destruct (IH H) as (skip & s0 & -> & Hm).
      by exists (String a skip), s0.
Qed.

(** The shape of a match of the pattern for URLs. *)
Lemma re_search_url_split (u : string) (m : rmatch) :
  re_search URL_SEARCH_PATTERN u = Some m ->
  exists pre ds rest,
    u = pre +:+ "/articles/" +:+ ds +:+ rest /\
    pre <> "" /\
    all_digits ds = true /\
    5 <= String.length ds /\
    starts_with_digit rest = false /\
    group1 m = Some ds.
Proof.
  intros H. apply re_search_split in H as (skip & s0 & -> & H).
  change URL_SEARCH_PATTERN with (TRep CAny 1 true :: url_tail) in H.
  rewrite pmatch_rep in H.
  destruct (take_min (in_class CAny) 1 s0) as [s1|] eqn:E; [| done].
  apply take_min_inv in E as (c & -> & Hc & _).
  apply greedy_more_split in H as (a & s' & -> & _ & H).
  unfold url_tail in H. rewrite pmatch_lit in H.
  destruct (strip_prefix "/articles/" s') as [s''|] eqn:E; [| done].
  apply strip_prefix_inv in E as ->.
  apply pmatch_digits_inv in H as (ds & rest & -> & Hd & Hlen & Hrest & ->).
  exists (skip +:+ c +:+ a), ds, rest.
  rewrite !append_assoc. repeat split; try done.
  destruct c as [|c0 c]; [done |]. by destruct skip.
Qed.

(** X1. Whatever the pattern for URLs matches, the group is a run of at
    least five digits that no digit follows, it comes right after
    [/articles/], and at least one character stands in front of
    [/articles/]. *)
Theorem re_search_url_shape (u : string) (m : rmatch) :
  re_search URL_SEARCH_PATTERN u = Some m ->
  exists pre ds rest,
    u = pre +:+ "/articles/" +:+ ds +:+ rest /\
    pre <> "" /\
    all_digits ds = true /\
    5 <= String.length ds /\
    starts_with_digit rest = false /\
    group1 m = Some ds.
Proof. apply re_search_url_split. Qed.

Lemma re_search_url_shape_witness :
  exists pre ds rest,
    "https://fc2ppvdb.com/articles/1234567?page=2"
    = pre +:+ "/articles/" +:+ ds +:+ rest /\
    pre <> "" /\
    all_digits ds = true /\
    5 <= String.length ds /\
    starts_with_digit rest = false /\
    Some "1234567" = Some ds.
Proof.
  exact (re_search_url_shape "https://fc2ppvdb.com/articles/1234567?page=2"
           (mkMatch "1234567?page=2" (Some "1234567")) eq_refl).
Defined.

(** The same for the pattern for codes, without [/articles/]. *)
Lemma re_search_code_shape (s : string) (m : rmatch) :
  re_search CODE_SEARCH_PATTERN s = Some m ->
  exists pre ds rest,
    s = pre +:+ ds +:+ rest /\
    all_digits ds = true /\
    5 <= String.length ds /\
    starts_with_digit rest = false /\
    group1 m = Some ds.
Proof.
  intros H. apply re_search_split in H as (skip & s0 & -> & H).
  unfold CODE_SEARCH_PATTERN in H. rewrite pmatch_rep in H.
  simpl take_min in H. cbv iota in H.
  apply lazy_more_split in H as (a & s' & -> & _ & H).
  apply pmatch_digits_inv in H as (ds & rest & -> & Hd & Hlen & Hrest & ->).
  exists (skip +:+ a), ds, rest. by rewrite !append_assoc.
Qed.

Lemma search_field_inv (pat : list tok) (fragment : json) (k : string)
    (o : option string) :
  search_field pat fragment k = Val (Some o) ->
  exists s m, re_search pat s = Some m /\ o = group1 m.
Proof.
  unfold search_field. intros H.
  apply res_bind_val in H as (v & _ & H).
  destruct (truthy v); [| done].
  apply res_bind_val in H as (search & Hs & H).
  destruct v as [| | |s| |]; try done.
  injection Hs as <-.
  destruct (re_search pat s) as [m|] eqn:E; [| done].
  injection H as <-. eauto.
Qed.

Lemma search_files_inv (files : list json) (id : string) :
  search_files files = Val (Some id) ->
  exists s m, re_search CODE_SEARCH_PATTERN s = Some m /\ group1 m = Some id.
Proof.
  induction files as [|file rest IH]; [done |].
  intros H.
  change (search_files (file :: rest))
    with (res_bind (subscript file "path") (fun path =>
          res_bind (py_search CODE_SEARCH_PATTERN path) (fun search =>
            match search with
            | Some m => Val (group1 m)
            | None => search_files rest
            end))) in H.
  apply res_bind_val in H as (path & _ & H).
  apply res_bind_val in H as (search & Hs & H).
  destruct path as [| | |s| |]; try done.
  injection Hs as <-.
  destruct (re_search CODE_SEARCH_PATTERN s) as [m|] eqn:E; [| by apply IH].
  injection H as H. eauto.
Qed.

(** What [extract_id] returns is a match of one of the two patterns. *)
Lemma extract_id_sound (fragment : json) (id : string) :
  extract_id fragment = Val (Some id) ->
  all_digits id = true /\ 5 <= String.length id.
Proof.
  intros H.
  assert (exists pat s m,
            (pat = URL_SEARCH_PATTERN \/ pat = CODE_SEARCH_PATTERN) /\
            re_search pat s = Some m /\ group1 m = Some id)
    as (pat & s & m & Hpat & Hm & Hid).
  { unfold extract_id in H.
    apply res_bind_val in H as ([o|] & H1 & H).
    { apply search_field_inv in H1 as (s & m & Hm & ->).
      injection H as H. exists URL_SEARCH_PATTERN, s, m. auto. }
    apply res_bind_val in H as ([o|] & H2 & H).
    { apply search_field_inv in H2 as (s & m & Hm & ->).
      injection H as H. exists CODE_SEARCH_PATTERN, s, m. auto. }
    apply res_bind_val in H as ([o|] & H3 & H).
    { apply search_field_inv in H3 as (s & m & Hm & ->).
      injection H as H. exists CODE_SEARCH_PATTERN, s, m. auto. }
    apply res_bind_val in H as (files & _ & H).
    apply res_bind_val in H as (l & _ & H).
    apply search_files_inv in H as (s & m & Hm & Hid).
    exists CODE_SEARCH_PATTERN, s, m. auto. }
  destruct Hpat as [-> | ->].
  - apply re_search_url_split in Hm as (? & ds & ? & _ & _ & Hd & Hlen & _ & E).
    rewrite Hid in E. by injection E as ->.
  - apply re_search_code_shape in Hm as (? & ds & ? & _ & Hd & Hlen & _ & E).
    rewrite Hid in E. by injection E as ->.
Qed.

(** X2. On a fragment whose strings hold characters below U+0100 only
    (the strings of this development, where [\d] is ['0'..'9']), an
    identifier that [extract_id] returns is made of the digits 0 to 9
    only, at least five of them. *)
Theorem extract_id_digits (fragment : json) (id : string) :
  extract_id fragment = Val (Some id) ->
  all_digits id = true /\ 5 <= String.length id.
Proof. apply extract_id_sound. Qed.

Lemma extract_id_digits_witness :
  all_digits "7654321" = true /\ 5 <= String.length "7654321".
Proof.
  exact (extract_id_digits
           (JObj [("title", JStr "a title [FC2-PPV-7654321] 1080p")])
           "7654321" eq_refl).
Defined.

(** ** The first run of digits *)

Lemma five_digits_run (ds rest : string) :
  all_digits ds = true -> 5 <= String.length ds ->
  five_digits (ds +:+ rest) = true.
Proof.
  intros Hd Hlen. unfold five_digits. apply bool_decide_eq_true.
  destruct (take_min_run is_digit 5 ds rest Hd Hlen) as (? & ? & _ & _ & ->).
  eauto.
Qed.

(** The part of the pattern for codes after [.*?], as a continuation. *)
Lemma code_tail_none (t : string) (m0 : rmatch) :
  five_digits t = false ->
  pmatch [TOpen; TRep CDigit 5 true; TClose; TRep CAny 0 true] t m0 = None.
Proof.
  intros H.
  destruct (pmatch _ t m0) as [m|] eqn:E; [| done].
  assert (five_digits t = true) by (apply (pmatch_digits_some t m0); eauto).
  congruence.
Qed.

Lemma lazy_more_cons {A} (p : ascii -> bool) (k : string -> option A)
    (a : ascii) (s : string) :
  lazy_more p (String a s) k
  = match k (String a s) with
    | Some r => Some r
    | None => if p a then lazy_more p s k else None
    end.
Proof. reflexivity. Qed.

Lemma lazy_more_here {A} (p : ascii -> bool) (k : string -> option A)
    (s : string) (r : A) :
  k s = Some r -> lazy_more p s k = Some r.
Proof. intros H. destruct s; simpl; by rewrite H. Qed.

(** From any start in front of the first run, [.*?] either reaches the
    run or stops at a line feed. *)
Lemma lazy_more_first_run (pre ds rest : string) (m0 : rmatch) :
  all_digits ds = true ->
  5 <= String.length ds ->
  starts_with_digit rest = false ->
  no_run_before pre (ds +:+ rest) = true ->
  let k := fun t =>
    pmatch [TOpen; TRep CDigit 5 true; TClose; TRep CAny 0 true] t m0 in
  lazy_more (in_class CAny) (pre +:+ ds +:+ rest) k
  = Some (mkMatch (ds +:+ rest) (Some ds)) \/
  lazy_more (in_class CAny) (pre +:+ ds +:+ rest) k = None.
Proof.
  intros Hd Hlen Hrest Hpre k.
  induction pre as [|c pre IH]; sapp.
  - left. apply lazy_more_here. unfold k. by apply pmatch_digits.
  - simpl in Hpre. apply andb_prop in Hpre as [Hc Hpre].
    apply negb_true_iff in Hc. revert Hc. sapp. intros Hc.
    simpl. unfold k at 1 3. rewrite (code_tail_none _ _ Hc).
    destruct (negb (is_newline c)); [by apply IH | by right].
Qed.

Lemma re_search_cons (pat : list tok) (a : ascii) (s : string) :
  re_search pat (String a s)
  = match pmatch pat (String a s) (mkMatch (String a s) None) with
    | Some m => Some m
    | None => re_search pat s
    end.
Proof. reflexivity. Qed.

Lemma pmatch_code (s : string) (m : rmatch) :
  pmatch CODE_SEARCH_PATTERN s m
  = lazy_more (in_class CAny) s (fun t =>
      pmatch [TOpen; TRep CDigit 5 true; TClose; TRep CAny 0 true] t m).
Proof. reflexivity. Qed.

Lemma re_search_code_run (pre ds rest : string) :
  all_digits ds = true ->
  5 <= String.length ds ->
  starts_with_digit rest = false ->
  no_run_before pre (ds +:+ rest) = true ->
  re_search CODE_SEARCH_PATTERN (pre +:+ ds +:+ rest)
  = Some (mkMatch (ds +:+ rest) (Some ds)).
Proof.
  intros Hd Hlen Hrest Hpre.
  induction pre as [|c pre IH].
  - sapp. apply re_search_here. rewrite pmatch_code.
    apply lazy_more_here. by apply pmatch_digits.
  - pose proof Hpre as Hpre'. simpl in Hpre'.
    apply andb_prop in Hpre' as [_ Hpre'].
    sapp. rewrite re_search_cons, pmatch_code.
    destruct (lazy_more_first_run (String c pre) ds rest
                (mkMatch (String c (pre +:+ ds +:+ rest)) None)
                Hd Hlen Hrest Hpre) as [H | H]; revert H; sapp; intros ->.
    + done.
    + by apply IH.
Qed.

(** X3. In a string of characters below U+0100 (where [\d] is
    ['0'..'9']), the pattern for codes finds the first run of five digits
    or more, over line feeds too, and its group is the whole run: when no
    position in front of [ds] begins with five digits, [ds] is a run of at
    least five digits and no digit follows it, the group is [ds]. *)
Theorem re_search_code_first_run (pre ds rest : string) :
  all_digits ds = true ->
  5 <= String.length ds ->
  starts_with_digit rest = false ->
  no_run_before pre (ds +:+ rest) = true ->
  exists m,
    re_search CODE_SEARCH_PATTERN (pre +:+ ds +:+ rest) = Some m /\
    group1 m = Some ds.
Proof.
  intros Hd Hlen Hrest Hpre. eexists. split.
  - by apply re_search_code_run.
  - reflexivity.
Qed.

Lemma re_search_code_first_run_witness :
  exists m,
    re_search CODE_SEARCH_PATTERN
      ("1080p 2024" +:+ String "010" "FC2-PPV-" +:+ "7654321" +:+ " 99999")
    = Some m /\
    group1 m = Some "7654321".
Proof.
  apply (re_search_code_first_run
           ("1080p 2024" +:+ String "010" "FC2-PPV-") "7654321" " 99999");
    [reflexivity | simpl; lia | reflexivity | reflexivity].
Defined.

Lemma has_run_suffix (a s : string) :
  five_digits s = true -> has_run (a +:+ s) = true.
Proof.
  intros H. induction a as [|c a IH]; sapp.
  - destruct s as [|b s]; [by vm_compute in H |].
    change (has_run (String b s)) with (five_digits (String b s) || has_run s).
    by rewrite H.
  - change (has_run (String c (a +:+ s)))
      with (five_digits (String c (a +:+ s)) || has_run (a +:+ s)).
    rewrite IH. apply orb_true_r.
Qed.

(** X4. In a string of characters below U+0100 (where [\d] is
    ['0'..'9']), the pattern for codes finds nothing exactly when no
    position of the string begins with five of the digits 0 to 9. *)
Theorem re_search_code_none (s : string) :
  re_search CODE_SEARCH_PATTERN s = None <-> has_run s = false.
Proof.
  induction s as [|c s IH].
  - by vm_compute.
  - rewrite re_search_cons, pmatch_code.
    change (has_run (String c s))
      with (five_digits (String c s) || has_run s).
    set (m0 := mkMatch (String c s) None).
    destruct (five_digits (String c s)) eqn:Hc.
    + apply (pmatch_digits_some _ m0) in Hc as [m Hm].
      rewrite lazy_more_cons, Hm. by split.
    + rewrite lazy_more_cons, (code_tail_none _ m0 Hc). simpl orb.
      destruct (in_class CAny c); [| exact IH].
      destruct (lazy_more _ s _) as [m|] eqn:E; [| exact IH].
      split; [done |]. intros Hrun.
      apply lazy_more_split in E as (a & s' & -> & _ & Hm).
      assert (five_digits s' = true)
        by (apply (pmatch_digits_some s' m0); eauto).
      by rewrite has_run_suffix in Hrun.
Qed.

(** ** More on the mapper *)

Lemma map_res_Forall2 {A B} (f : A -> res B) (l : list A) (ys : list B) :
  map_res f l = Val ys -> Forall2 (fun x y => f x = Val y) l ys.
Proof.
  revert ys. induction l as [|x l IH]; intros ys; simpl.
  - intros [= <-]. constructor.
  - intros H. apply res_bind_val in H as (y & Hy & H).
    apply res_bind_val in H as (ys' & Hys & H). injection H as <-.
    constructor; [done | by apply IH].
Qed.

(** Everything a successful mapping fixes. *)
Lemma export_scene_fields (env : Env) (result : json) (sc : ScrapedScene) :
  export_scene env result = Val sc ->
  exists article tagsv tl actv al image_url writer video_id,
    subscript result "article" = Val article /\
    subscript article "tags" = Val tagsv /\
    py_iter tagsv = Val tl /\
    Forall2 (fun x t => subscript x "name" = Val (tag_name t)) tl (tags sc) /\
    subscript article "actresses" = Val actv /\
    py_iter actv = Val al /\
    Forall2 (fun x p =>
               subscript x "name" = Val (performer_name p) /\
               exists id,
                 subscript x "id" = Val id /\
                 performer_urls p
                 = [BASE_QUERY_URL +:+ "/actresses/" +:+ format_value env id])
            al (performers sc) /\
    subscript article "image_url" = Val image_url /\
    normalize_image env image_url = Val (image sc) /\
    subscript article "title" = Val (title sc) /\
    subscript article "release_date" = Val (date sc) /\
    subscript article "writer" = Val writer /\
    subscript writer "name" = Val (studio_name (studio sc)) /\
    (exists slug,
       subscript writer "slug" = Val slug /\
       studio_url (studio sc)
       = BASE_QUERY_URL +:+ "/writers/" +:+ format_value env slug) /\
    director sc = studio_name (studio sc) /\
    subscript article "video_id" = Val video_id /\
    code sc = "FC2-PPV-" +:+ format_value env video_id /\
    url sc = BASE_QUERY_URL +:+ "/articles/" +:+ format_value env video_id.
Proof.
  unfold export_scene. intros H.
  apply res_bind_val in H as (article & Ha & H).
  apply res_bind_val in H as (tagsv & Htv & H).
  apply res_bind_val in H as (tl & Htl & H).
  apply res_bind_val in H as (ts & Hts & H).
  apply res_bind_val in H as (actv & Hav & H).
  apply res_bind_val in H as (al & Hal & H).
  apply res_bind_val in H as (ps & Hps & H).
  apply res_bind_val in H as (image_url & Hi & H).
  apply res_bind_val in H as (img & Himg & H).
  apply res_bind_val in H as (ti & Hti & H).
  apply res_bind_val in H as (rd & Hrd & H).
  apply res_bind_val in H as (w1 & Hw1 & H).
  apply res_bind_val in H as (wn & Hwn & H).
  apply res_bind_val in H as (w2 & Hw2 & H).
  apply res_bind_val in H as (ws & Hws & H).
  apply res_bind_val in H as (w3 & Hw3 & H).
  apply res_bind_val in H as (dn & Hdn & H).
  apply res_bind_val in H as (v1 & Hv1 & H).
  apply res_bind_val in H as (v2 & Hv2 & H).
  injection H as <-. simpl.
  rewrite Hw1 in Hw2, Hw3. injection Hw2 as <-. injection Hw3 as <-.
  rewrite Hwn in Hdn. injection Hdn as <-.
  rewrite Hv1 in Hv2. injection Hv2 as <-.
  exists article, tagsv, tl, actv, al, image_url, w1, v1.
  repeat split; try done.
  - apply map_res_Forall2 in Hts.
    eapply Forall2_impl; [exact Hts |]. intros x t Hx.
    apply res_bind_val in Hx as (n & Hn & Hx). by injection Hx as <-.
  - apply map_res_Forall2 in Hps.
    eapply Forall2_impl; [exact Hps |]. intros x p Hx.
    apply res_bind_val in Hx as (n & Hn & Hx).
    apply res_bind_val in Hx as (i & Hid & Hx). injection Hx as <-.
    simpl. eauto.
  - eauto.
Qed.

Lemma extract_id_article_url (vid : string) :
  all_digits vid = true ->
  5 <= String.length vid ->
  extract_id (JObj [("url", JStr (article_url vid))]) = Val (Some vid).
Proof.
  intros Hd Hlen. unfold extract_id, article_url.
  rewrite (search_field_str URL_SEARCH_PATTERN
             [("url", JStr (BASE_QUERY_URL +:+ "/articles/" +:+ vid))] "url"
             (BASE_QUERY_URL +:+ "/articles/" +:+ vid) eq_refl eq_refl).
  pose proof (pmatch_url BASE_QUERY_URL vid ""
                (mkMatch (BASE_QUERY_URL +:+ "/articles/" +:+ vid +:+ "") None)
                ltac:(done) eq_refl Hd Hlen eq_refl eq_refl) as Hm.
  rewrite append_nil_r in Hm.
  by rewrite (re_search_here _ _ _ Hm).
Qed.

(** X5. The url of a mapped scene leads back to the identifier: when the
    [video_id] of the article is a string of at least five digits,
    [extract_id] on a fragment whose url is the scene's url returns that
    [video_id]. *)
Theorem scene_url_round_trip (env : Env) (result article : json)
    (vid : string) (sc : ScrapedScene) :
  subscript result "article" = Val article ->
  subscript article "video_id" = Val (JStr vid) ->
  export_scene env result = Val sc ->
  all_digits vid = true ->
  5 <= String.length vid ->
  extract_id (JObj [("url", JStr (url sc))]) = Val (Some vid).
Proof.
  intros Ha Hv H Hd Hlen.
  apply export_scene_fields in H
    as (a' & tv & tl' & av & al' & iu & w' & v' & Ha' & Htv & Htl & Hts & Hav
        & Hal & Hps & Hi & Hn & Hti & Hrd & Hw' & Hwn & Hslug & Hdir & Hv'
        & Hcode & Hurl).
  rewrite Ha in Ha'. injection Ha' as <-.
  rewrite Hv in Hv'. injection Hv' as <-. rewrite Hurl. simpl format_value.
  by apply extract_id_article_url.
Qed.

Lemma scene_url_round_trip_witness :
  exists sc,
    export_scene (sample_env JNull) (sample_article "/img/abc.jpg" "12345")
    = Val sc /\
    extract_id (JObj [("url", JStr (url sc))]) = Val (Some "12345").
Proof.
  eexists. split; [reflexivity |].
  refine (scene_url_round_trip (sample_env JNull)
            (sample_article "/img/abc.jpg" "12345") _ "12345" _
            eq_refl eq_refl eq_refl eq_refl _).
  simpl. lia.
Defined.

(** X6. A mapped scene has one tag per entry of the article's [tags]
    and one performer per entry of its [actresses], in the order of the
    article: each tag carries the entry's [name], each performer the
    entry's [name] and the one url [<base>/actresses/<id>], where a
    numeric [id] stands as its decimal numeral and a string as it is. *)
Theorem export_scene_lists (env : Env) (result article : json)
    (tl al : list json) (sc : ScrapedScene) :
  subscript result "article" = Val article ->
  subscript article "tags" = Val (JArr tl) ->
  subscript article "actresses" = Val (JArr al) ->
  export_scene env result = Val sc ->
  Forall2 (fun x t => subscript x "name" = Val (tag_name t)) tl (tags sc) /\
  Forall2 (fun x p =>
             subscript x "name" = Val (performer_name p) /\
             exists id,
               subscript x "id" = Val id /\
               performer_urls p
               = [BASE_QUERY_URL +:+ "/actresses/" +:+ format_value env id] /\
               (forall n, id = JInt n ->
                  performer_urls p
                  = [BASE_QUERY_URL +:+ "/actresses/"
                     +:+ NilZero.string_of_int (Z.to_int n)]) /\
               (forall s, id = JStr s ->
                  performer_urls p = [BASE_QUERY_URL +:+ "/actresses/" +:+ s]))
          al (performers sc).
Proof.
  intros Ha Ht Hp H.
  apply export_scene_fields in H
    as (a' & tv & tl' & av & al' & iu & w' & v' & Ha' & Htv & Htl & Hts & Hav
        & Hal & Hps & Hi & Hn & Hti & Hrd & Hw' & Hwn & Hslug & Hdir & Hv'
        & Hcode & Hurl).
  rewrite Ha in Ha'. injection Ha' as <-.
  rewrite Ht in Htv. injection Htv as <-.
  rewrite Hp in Hav. injection Hav as <-.
  simpl in Htl, Hal. injection Htl as <-. injection Hal as <-.
  split; [done |].
  eapply Forall2_impl; [exact Hps |].
  intros x p (Hname & id & Hid & Hu). split; [done |].
  exists id. split; [done |]. split; [done |].
  split; [by intros n -> | by intros s ->].
Qed.

Lemma export_scene_lists_witness :
  exists sc t p,
    export_scene (sample_env JNull) (sample_article "/img/abc.jpg" "12345")
    = Val sc /\
    tags sc = [t] /\
    tag_name t = JStr "tag" /\
    performers sc = [p] /\
    performer_name p = JStr "Someone" /\
    performer_urls p = ["https://fc2ppvdb.com/actresses/42"].
Proof.
  do 3 eexists. split; [reflexivity |].
  split; [reflexivity |].
  destruct (export_scene_lists (sample_env JNull)
              (sample_article "/img/abc.jpg" "12345") _
              [JObj [("name", JStr "tag")]]
              [JObj [("id", JInt 42); ("name", JStr "Someone")]] _
              eq_refl eq_refl eq_refl eq_refl) as [Ht Hp].
  apply Forall2_cons in Hp as [(_ & id & Hid & _ & Hint & _) _].
  injection Hid as <-.
  split; [reflexivity |]. split; [reflexivity |]. split; [reflexivity |].
  exact (Hint 42%Z eq_refl).
Defined.

(** X7. The image of a mapped scene always starts with [https]. *)
Theorem export_scene_image_https (env : Env) (result : json)
    (sc : ScrapedScene) :
  export_scene env result = Val sc ->
  String.prefix "https" (image sc) = true.
Proof.
  intros H.
  apply export_scene_fields in H
    as (a' & tv & tl' & av & al' & iu & w' & v' & Ha' & Htv & Htl & Hts & Hav
        & Hal & Hps & Hi & Hn & Hti & Hrd & Hw' & Hwn & Hslug & Hdir & Hv'
        & Hcode & Hurl).
  unfold normalize_image in Hn.
  destruct iu as [| | |s| |]; try done. simpl in Hn.
  destruct (String.prefix "https" s) eqn:E; simpl in Hn; injection Hn as <-.
  - exact E.
  - reflexivity.
Qed.

Lemma export_scene_image_https_witness :
  exists sc,
    export_scene (sample_env JNull) (sample_article "/img/abc.jpg" "12345")
    = Val sc /\
    String.prefix "https" (image sc) = true.
Proof.
  eexists. split; [reflexivity |].
  exact (export_scene_image_https (sample_env JNull)
           (sample_article "/img/abc.jpg" "12345") _ eq_refl).
Defined.

(** X8. In a mapped scene the studio and the director come from the one
    [writer] of the article: the director is the studio's name, which is
    the writer's [name], and the studio's url is [<base>/writers/<slug>];
    title and date are the article's [title] and [release_date]. *)
Theorem export_scene_writer (env : Env) (result article writer : json)
    (sc : ScrapedScene) :
  subscript result "article" = Val article ->
  subscript article "writer" = Val writer ->
  export_scene env result = Val sc ->
  subscript writer "name" = Val (director sc) /\
  studio_name (studio sc) = director sc /\
  (exists slug,
     subscript writer "slug" = Val slug /\
     studio_url (studio sc)
     = BASE_QUERY_URL +:+ "/writers/" +:+ format_value env slug) /\
  subscript article "title" = Val (title sc) /\
  subscript article "release_date" = Val (date sc).
Proof.
  intros Ha Hw H.
  apply export_scene_fields in H
    as (a' & tv & tl' & av & al' & iu & w' & v' & Ha' & Htv & Htl & Hts & Hav
        & Hal & Hps & Hi & Hn & Hti & Hrd & Hw' & Hwn & Hslug & Hdir & Hv'
        & Hcode & Hurl).
  rewrite Ha in Ha'. injection Ha' as <-.
  rewrite Hw in Hw'. injection Hw' as <-.
  rewrite Hdir. done.
Qed.

Lemma export_scene_writer_witness :
  exists sc,
    export_scene (sample_env JNull) (sample_article "/img/abc.jpg" "12345")
    = Val sc /\
    subscript (JObj [("name", JStr "A writer"); ("slug", JStr "a-writer")])
      "name" = Val (director sc) /\
    studio_name (studio sc) = director sc.
Proof.
  eexists. split; [reflexivity |].
  destruct (export_scene_writer (sample_env JNull)
              (sample_article "/img/abc.jpg" "12345") _
              (JObj [("name", JStr "A writer"); ("slug", JStr "a-writer")]) _
              eq_refl eq_refl eq_refl) as (Hd & Hs & _).
  split; [exact Hd | exact Hs].
Defined.

Lemma res_bind_exc {A B} (r : res A) (k : A -> res B) (e : exn) :
  res_bind r k = Exc e -> r = Exc e \/ exists a, r = Val a /\ k a = Exc e.
Proof. destruct r as [a|c|e']; simpl; [eauto | done | intros [= ->]; auto]. Qed.

Lemma subscript_key_error (v : json) (k k' : string) :
  subscript v k = Exc (KeyError k') -> k' = k.
Proof.
  destruct v as [| | | | |d]; try done. simpl.
  destruct (assoc k d); [done |]. by intros [= ->].
Qed.

Lemma map_res_exc {A B} (f : A -> res B) (l : list A) (e : exn) :
  map_res f l = Exc e -> exists x, f x = Exc e.
Proof.
  induction l as [|x l IH]; simpl; [done |]. intros H.
  apply res_bind_exc in H as [H | (y & _ & H)]; [eauto |].
  apply res_bind_exc in H as [H | (ys & _ & H)]; [by apply IH | done].
Qed.

Lemma py_iter_no_key_error (v : json) (k : string) :
  py_iter v <> Exc (KeyError k).
Proof. by destruct v. Qed.

Lemma normalize_image_no_key_error (env : Env) (v : json) (k : string) :
  normalize_image env v <> Exc (KeyError k).
Proof.
  unfold normalize_image. destruct v as [| | |s| |]; try done. simpl.
  by destruct (negb _).
Qed.

(** X9. A [KeyError] out of the mapper names one of the eleven keys the
    mapper looks up, all of them plain words, so the error line that
    [send_request] logs shows the key between two quotes. *)
Theorem export_scene_key_error (env : Env) (result : json) (k : string) :
  export_scene env result = Exc (KeyError k) ->
  k ∈ looked_up_keys.
Proof.
  unfold export_scene, looked_up_keys. intros H.
  repeat
    (apply res_bind_exc in H as [H | (? & _ & H)];
     [ first
         [ apply subscript_key_error in H as ->; set_solver
         | by apply py_iter_no_key_error in H
         | by apply normalize_image_no_key_error in H
         | apply map_res_exc in H as (? & H) ]
     | ]);
    done.
Qed.

Lemma export_scene_key_error_witness : "slug" ∈ looked_up_keys.
Proof.
  exact (export_scene_key_error (sample_env JNull)
           (JObj [("article", JObj
              [("tags", JArr []); ("actresses", JArr []);
               ("image_url", JStr "/img/abc.jpg"); ("title", JNull);
               ("release_date", JNull);
               ("writer", JObj [("name", JStr "A writer")])])])
           "slug" eq_refl).
Defined.

(** ** More on the session store *)









(** X11. A cookie file that cannot be opened for writing is not fatal,
    whatever the jar holds: [write_cookie] logs the error and returns,
    and the file, the jar and the headers are as before. *)
Theorem write_cookie_error_not_fatal (st : State) (err : string) :
  write_error st = Some err ->
  write_cookie st
  = (Val tt,
     mkState (cookie_file st) (readable st) (write_error st) (cookies st)
             (headers st)
             ((trace st ++ [EvWriteCookie])
              ++ [EvLog Error ("Failed to write cookie to file, err: " +:+ err)])).
Proof. intros H. by rewrite write_cookie_run, H. Qed.

Lemma write_cookie_error_not_fatal_witness :
  (write_cookie
     (mkState (Some "old") Readable (Some "Permission denied")
              (<["fc2ppvdb_session" := "new"]> ∅) ∅ [])).1 = Val tt.
Proof.
  exact (f_equal fst
           (write_cookie_error_not_fatal
              (mkState (Some "old") Readable (Some "Permission denied")
                       (<["fc2ppvdb_session" := "new"]> ∅) ∅ [])
              "Permission denied" eq_refl)).
Defined.

(** ** The session cookie through a run *)

Lemma keeps_refl (st : State) : keeps st st.
Proof. by split. Qed.

Lemma keeps_trans (st1 st2 st3 : State) :
  keeps st1 st2 -> keeps st2 st3 -> keeps st1 st3.
Proof.
  intros (H1 & F1 & W1) (H2 & F2 & W2). split; [auto |].
  split; congruence.
Qed.

Lemma foldl_insert_is_Some (kvs : list (string * string))
    (jar : gmap string string) (k : string) :
  is_Some (jar !! k) ->
  is_Some (foldl (fun jar kv => <[kv.1 := kv.2]> jar) jar kvs !! k).
Proof.
  revert jar. induction kvs as [|[k' v] kvs IH]; intros jar H; [done |].
  simpl. apply IH. rewrite lookup_insert. by case_decide.
Qed.

Lemma keeps_emit (ev : event) (st : State) : keeps st (emit ev st).2.
Proof. by split. Qed.

Lemma keeps_set_cookies_of (kvs : list (string * string)) (st : State) :
  keeps st (set_cookies_of kvs st).2.
Proof.
  split; [| done]. unfold has_session. simpl. apply foldl_insert_is_Some.
Qed.

Lemma keeps_update_headers (kvs : list (string * option string)) (st : State) :
  keeps st (update_headers kvs st).2.
Proof. by split. Qed.










(** ** What goes on the wire *)

Lemma sat_lift {A} (r : res A) (Q : res A -> list event -> Prop) :
  Q r [] -> sat (lift r) Q.
Proof. intros H st. exists []. simpl. by rewrite app_nil_r. Qed.




(** X13. A run of [send_request] sends at most two requests and nothing
    to standard output: first the article page of the identifier, then,
    only after the page was fetched and a token found in it, the
    article-info address of the same identifier. A run that returns a
    scene has sent both. *)
Theorem send_request_requests (env : Env) (video_id : string) (st : State) :
  exists evs,
    trace (send_request env video_id st).2 = trace st ++ evs /\
    (wire evs = [] \/
     wire evs = [EvGet (article_url video_id)] \/
     wire evs = [EvGet (article_url video_id); EvGet (api_url video_id)]) /\
    (wire evs = [EvGet (article_url video_id); EvGet (api_url video_id)] ->
     exists page csrf rest,
       fetched env (article_url video_id) page /\
       csrf_meta env page = PageTokens (csrf :: rest)) /\
    (is_val (send_request env video_id st).1 = true ->
     wire evs = [EvGet (article_url video_id); EvGet (api_url video_id)]).
Proof.
  destruct (send_request_sat env video_id st) as (evs & Ht & Hpost & Hwire).
  exists evs. split; [exact Ht |]. split; [| split].
  - destruct Hwire as [H | [H | [H _]]]; auto.
  - intros Hboth.
    destruct Hwire as [H | [H | [_ Htoken]]];
      [by rewrite H in Hboth | by rewrite H in Hboth | exact Htoken].
  - destruct (send_request env video_id st).1 as [scene|c|e]; [| done | done].
    intros _. by destruct Hpost as (_ & Hw & _).
Qed.



(** ** The headers of the API request *)

(** X15. [request_article_info] always sends its request, also when the
    jar has no [XSRF-TOKEN] cookie: the request goes to the article-info
    address with the session's cookies and with headers in which
    [X-CSRF-TOKEN] is the token of the page, [X-Requested-With] is
    [XMLHttpRequest], [X-XSRF-TOKEN] is the jar's [XSRF-TOKEN] cookie
    ([None] without one) and every other header is as it was; the answer
    is the response, or [None] after a [RequestException]. *)
Theorem request_article_info_headers (env : Env) (video_id csrf : string)
    (st : State) :
  let hs := headers (request_article_info env video_id csrf st).2 in
  hs !! "X-CSRF-TOKEN" = Some (Some csrf) /\
  hs !! "X-Requested-With" = Some (Some "XMLHttpRequest") /\
  hs !! "X-XSRF-TOKEN" = Some (cookies st !! "XSRF-TOKEN") /\
  (forall k,
     k <> "X-CSRF-TOKEN" -> k <> "X-Requested-With" -> k <> "X-XSRF-TOKEN" ->
     hs !! k = headers st !! k) /\
  (request_article_info env video_id csrf st).1
  = Val match http_get env (api_url video_id) hs (cookies st) with
        | Response body _ => Some {| text := body |}
        | RequestException _ => None
        end.
Proof.
  unfold request_article_info, scraper_get, log, api_url. run.
  assert (forall r : res (option response) * State,
            headers r.2
            = <["X-XSRF-TOKEN" := cookies st !! "XSRF-TOKEN"]>
                (<["X-Requested-With" := Some "XMLHttpRequest"]>
                   (<["X-CSRF-TOKEN" := Some csrf]> (headers st))) ->
            let hs := headers r.2 in
            hs !! "X-CSRF-TOKEN" = Some (Some csrf) /\
            hs !! "X-Requested-With" = Some (Some "XMLHttpRequest") /\
            hs !! "X-XSRF-TOKEN" = Some (cookies st !! "XSRF-TOKEN") /\
            (forall k,
               k <> "X-CSRF-TOKEN" -> k <> "X-Requested-With" ->
               k <> "X-XSRF-TOKEN" -> hs !! k = headers st !! k)) as Hh.
  { intros r Hr hs. subst hs. rewrite Hr. repeat split.
    - do 2 (rewrite lookup_insert_ne by done). by rewrite lookup_insert_eq.
    - rewrite lookup_insert_ne by done. by rewrite lookup_insert_eq.
    - by rewrite lookup_insert_eq.
    - intros k H1 H2 H3. by do 3 (rewrite lookup_insert_ne by done). }
  destruct (http_get _ _ _ _) as [req_error | body kvs] eqn:E; run.
  - destruct (Hh (Val None,
                  mkState (cookie_file st) (readable st) (write_error st)
                    (cookies st)
                    (<["X-XSRF-TOKEN" := cookies st !! "XSRF-TOKEN"]>
                       (<["X-Requested-With" := Some "XMLHttpRequest"]>
                          (<["X-CSRF-TOKEN" := Some csrf]> (headers st))))
                    []) eq_refl) as (H1 & H2 & H3 & H4).
    simpl in *. repeat split; try done.
    simpl in E. by rewrite E.
  - destruct (Hh (Val None,
                  mkState (cookie_file st) (readable st) (write_error st)
                    (cookies st)
                    (<["X-XSRF-TOKEN" := cookies st !! "XSRF-TOKEN"]>
                       (<["X-Requested-With" := Some "XMLHttpRequest"]>
                          (<["X-CSRF-TOKEN" := Some csrf]> (headers st))))
                    []) eq_refl) as (H1 & H2 & H3 & H4).
    simpl in *. repeat split; try done.
    simpl in E. by rewrite E.
Qed.

(** ** From a fragment to the article page and back *)

(** X16. The address of the article page that the script requests for an
    extracted identifier leads back to that identifier: whatever fragment
    [extract_id] found [id] in, it finds [id] again in a fragment whose url
    is the article page of [id]. *)
Theorem extract_id_stable (fragment : json) (id : string) :
  extract_id fragment = Val (Some id) ->
  extract_id (JObj [("url", JStr (article_url id))]) = Val (Some id).
Proof.
  intros H. apply extract_id_sound in H as [Hd Hlen].
  by apply extract_id_article_url.
Qed.

Lemma extract_id_stable_witness :
  extract_id (JObj [("url", JStr (article_url "7654321"))])
  = Val (Some "7654321").
Proof.
  exact (extract_id_stable
           (JObj [("files",
                   JArr [JObj [("path", JStr "/media/FC2-PPV-7654321.mp4")]])])
           "7654321" eq_refl).
Defined.
